(** * stm: the stock downloader and the LSTM trainer

    A shallow embedding of the two scripts of the repository,
    [download_stock.py] and [ml/model.py], and the properties their
    specification states about them.

    Both scripts are straight-line drivers of external libraries (the
    operating system, yfinance, pandas, numpy, torch).  What the scripts
    themselves decide is which calls are made, in which order, with which
    arguments.  The embedding therefore runs each script in a small
    state-and-exception monad over an explicit world (file system, working
    directory, the trace of library calls) and keeps the libraries'
    numerical content behind interfaces (type classes). *)

From Stdlib Require Import String Ascii DecimalString ZArith NArith List Lia.
From stdpp Require Import gmap list.

Set Default Proof Using "Type".

(** ** Python strings

    A Python [str] is a sequence of Unicode code points. *)

Abbreviation str := (list N).

(** The Python string written as an ASCII literal. *)
Definition py (x : string) : str :=
  map N_of_ascii (list_ascii_of_string x).
Arguments py x%_string : simpl never.

(** [str.upper] maps every code point through the full upper-case mapping of
    the Unicode database (one code point may become several).  The ASCII
    range is written out; the rest of the table belongs to the interpreter. *)
Class UnicodeData := { toupper_full : N → str }.

Definition ascii_upper (c : N) : N :=
  if ((97 <=? c) && (c <=? 122))%N then (c - 32)%N else c.

Definition upper_cp `{UnicodeData} (c : N) : str :=
  if (c <? 128)%N then [ascii_upper c] else toupper_full c.

Definition upper `{UnicodeData} (x : str) : str :=
  flat_map upper_cp x.

(** [str(n)] for a non-negative integer. *)
Definition str_of_nat (n : nat) : str :=
  py (NilEmpty.string_of_uint (Nat.to_uint n)).

(** ** Paths (posixpath) *)

Definition sep : N := 47.

Definition startswith_sep (b : str) : bool :=
  match b with
  | c :: _ => (c =? sep)%N
  | [] => false
  end.

Definition endswith_sep (a : str) : bool :=
  match last a with
  | Some c => (c =? sep)%N
  | None => false
  end.

(** [os.path.join(a, b)]: an absolute second component discards the first. *)
Definition path_join (a b : str) : str :=
  if startswith_sep b || bool_decide (a = []) then b
  else if endswith_sep a then a ++ b
  else a ++ [sep] ++ b.

(** Components of a path, split at every separator. *)
Fixpoint split_sep (x : str) : list str :=
  match x with
  | [] => [[]]
  | c :: r =>
      if (c =? sep)%N then [] :: split_sep r
      else match split_sep r with
           | h :: t => (c :: h) :: t
           | [] => [[c]]
           end
  end.

(** An absolute location is the list of names from the root.  Paths are
    resolved lexically against the working directory (no symbolic links). *)
Abbreviation loc := (list (list N)).

Definition enter (k : loc) (c : str) : loc :=
  if bool_decide (c = []) || bool_decide (c = py ".") then k
  else if bool_decide (c = py "..") then removelast k
  else k ++ [c].

Definition resolve (cwd : loc) (p : str) : loc :=
  fold_left enter (split_sep p) (if startswith_sep p then [] else cwd).

Definition parent (k : loc) : loc := removelast k.

(** ** The world *)

Inductive exn :=
| FileExistsError
| FileNotFoundError
| NotADirectoryError
| IsADirectoryError
| PermissionError
| ValueError
| IndexError
| RecursionError
| LibraryError (name : str).

Inductive node :=
| Dir
| File (content : list N).

(** A literal such as [0.01]: mantissa and decimal exponent. *)
Record decimal_lit := Dec { mantissa : Z; exponent : Z }.

(** The calls a script makes into its libraries, in program order. *)
Inductive Event :=
| EPrint (line : str)
| EDownload (ticker period : str)
| EMakedirs (path : str) (exist_ok : bool)
| EWrite (path : str) (content : list N)
| ENewLSTM (input_size hidden_size num_layers : nat) (batch_first : bool)
| ENewLinear (in_features out_features : nat)
| ENewMSELoss
| ENewAdam (lr : decimal_lit)
| EOptimStep.

Definition printed (e : Event) : option str :=
  match e with
  | EPrint l => Some l
  | _ => None
  end.

Definition is_write (e : Event) : bool :=
  match e with
  | EWrite _ _ => true
  | _ => false
  end.

Definition is_optim_step (e : Event) : bool :=
  match e with
  | EOptimStep => true
  | _ => false
  end.

(** The file system maps the locations that exist to their nodes (the root
    always exists); [denied] holds the locations the process may neither
    create nor modify; [trace] is the list of calls made so far. *)
Record World := mkWorld {
  fs : gmap (list (list N)) node;
  cwd : loc;
  denied : gset (list (list N));
  trace : list Event
}.

Definition node_at (w : World) (k : loc) : option node :=
  match k with
  | [] => Some Dir
  | _ => fs w !! k
  end.

Definition isdir (w : World) (k : loc) : bool :=
  match node_at w k with
  | Some Dir => true
  | _ => false
  end.

Definition exists_at (w : World) (k : loc) : bool :=
  match node_at w k with
  | Some _ => true
  | None => false
  end.

Definition with_fs (f : gmap (list (list N)) node) (w : World) : World :=
  mkWorld f (cwd w) (denied w) (trace w).

Definition emit (e : Event) (w : World) : World :=
  mkWorld (fs w) (cwd w) (denied w) (trace w ++ [e]).

Definition emits (evs : list Event) (w : World) : World :=
  mkWorld (fs w) (cwd w) (denied w) (trace w ++ evs).

(** The lines printed so far. *)
Definition stdout (w : World) : list str := omap printed (trace w).

(** ** The monad: state, exceptions and [sys.exit] *)

Inductive outcome (A : Type) :=
| Ret (a : A)
| Raise (e : exn)
| Exit (code : Z).
Arguments Ret {A} a.
Arguments Raise {A} e.
Arguments Exit {A} code.

Definition M (S A : Type) : Type := S → outcome A * S.

Definition ret {S A} (a : A) : M S A := λ s, (Ret a, s).
Definition raise {S A} (e : exn) : M S A := λ s, (Raise e, s).
Definition sys_exit {S A} (code : Z) : M S A := λ s, (Exit code, s).

Definition bind {S A B} (m : M S A) (f : A → M S B) : M S B :=
  λ s, match m s with
       | (Ret a, s') => f a s'
       | (Raise e, s') => (Raise e, s')
       | (Exit c, s') => (Exit c, s')
       end.

Declare Scope py_scope.
Delimit Scope py_scope with py.
Notation "x <-- m ;; k" := (bind m (λ x, k))
  (at level 100, m at next level, right associativity) : py_scope.
Notation "m ;; k" := (bind m (λ _, k))
  (at level 100, right associativity) : py_scope.
Open Scope py_scope.

(** The status the interpreter process ends with: 0 when the script runs to
    its end, the argument of [sys.exit], 1 for an uncaught exception. *)
Definition exit_code {A} (o : outcome A) : Z :=
  match o with
  | Ret _ => 0
  | Raise _ => 1
  | Exit c => c
  end.

(** ** Operating-system calls *)

Definition print (line : str) : M World unit :=
  λ w, (Ret tt, emit (EPrint line) w).

(** [os.mkdir]: the path must be free, its parent a directory, and the
    creation permitted. *)
Definition mkdir (k : loc) : M World unit :=
  λ w,
    if exists_at w k then (Raise FileExistsError, w)
    else match node_at w (parent k) with
         | None => (Raise FileNotFoundError, w)
         | Some (File _) => (Raise NotADirectoryError, w)
         | Some Dir =>
             if bool_decide (k ∈ denied w) then (Raise PermissionError, w)
             else (Ret tt, with_fs (<[k := Dir]> (fs w)) w)
         end.

(** [os.path.split]: the head is everything up to the last separator, with
    its trailing separators stripped unless it consists of separators only;
    the tail is what follows the last separator. *)
Fixpoint lstrip_sep (x : str) : str :=
  match x with
  | c :: r => if (c =? sep)%N then lstrip_sep r else x
  | [] => []
  end.

Definition rstrip_sep (x : str) : str := rev (lstrip_sep (rev x)).

Definition path_split (p : str) : str * str :=
  let tail := default [] (last (split_sep p)) in
  let head := take (length p - length tail) p in
  (if negb (bool_decide (head = [])) && negb (forallb (λ c, (c =? sep)%N) head)
   then rstrip_sep head else head,
   tail).

(** The last step of [os.makedirs]: [mkdir], whose [OSError] is swallowed when
    [exist_ok] is set and the path is a directory. *)
Definition mkdir_exist_ok (k : loc) (exist_ok : bool) : M World unit :=
  λ w, match mkdir k w with
       | (Raise e, w') =>
           if exist_ok && isdir w' k then (Ret tt, w') else (Raise e, w')
       | r => r
       end.

(** The head and tail [os.makedirs] works with: a name that ends in a
    separator is split once more. *)
Definition head_tail (name : str) : str * str :=
  let '(head, tail) := path_split name in
  if bool_decide (tail = []) then path_split head else (head, tail).
Arguments head_tail : simpl never.

(** [os.makedirs(name, exist_ok=...)], following the library: split the name;
    when the head is missing, make it first, ignoring a [FileExistsError]
    from that recursive call; then make the directory itself.  The head of a
    name is shorter than the name, so the length of the name is fuel enough;
    the interpreter's own recursion limit is the fallback. *)
Fixpoint makedirs_aux (fuel : nat) (name : str) (exist_ok : bool) : M World unit :=
  λ w,
    let k := resolve (cwd w) name in
    let ht := head_tail name in
    if negb (bool_decide (ht.1 = [])) && negb (bool_decide (ht.2 = []))
       && negb (exists_at w (resolve (cwd w) ht.1))
    then match fuel with
         | O => (Raise RecursionError, w)
         | S fuel' =>
             let after : M World unit :=
               if bool_decide (ht.2 = py ".") then ret tt
               else mkdir_exist_ok k exist_ok in
             match makedirs_aux fuel' ht.1 exist_ok w with
             | (Ret _, w1) => after w1
             | (Raise FileExistsError, w1) => after w1
             | r => r
             end
         end
    else mkdir_exist_ok k exist_ok w.

Definition makedirs (name : str) (exist_ok : bool) : M World unit :=
  λ w, makedirs_aux (length name) name exist_ok (emit (EMakedirs name exist_ok) w).

(** Opening [p] for writing and writing [content]: the file is created or
    truncated. *)
Definition write_file (p : str) (content : list N) : M World unit :=
  λ w0,
    let w := emit (EWrite p content) w0 in
    let k := resolve (cwd w) p in
    if bool_decide (p = []) then (Raise FileNotFoundError, w)
    else if isdir w k then (Raise IsADirectoryError, w)
    else match node_at w (parent k) with
         | None => (Raise FileNotFoundError, w)
         | Some (File _) => (Raise NotADirectoryError, w)
         | Some Dir =>
             if bool_decide (k ∈ denied w) then (Raise PermissionError, w)
             else (Ret tt, with_fs (<[k := File content]> (fs w)) w)
         end.

(** What a call leaves alone: the working directory, the permissions and the
    events recorded so far. *)
Definition same_frame (w w' : World) : Prop :=
  cwd w' = cwd w ∧ denied w' = denied w ∧ trace w' = trace w.

(** ** download_stock.py *)

(** The market-data provider and the table it returns. *)
Class YFinance := {
  DataFrame : Type;
  provider : str → str → exn + DataFrame;
  csv_text : DataFrame → list N
}.

Section Downloader.
Context `{UnicodeData} `{YFinance}.

Definition yf_download (ticker period : str) : M World DataFrame :=
  λ w, let w' := emit (EDownload ticker period) w in
       match provider ticker period with
       | inl e => (Raise e, w')
       | inr d => (Ret d, w')
       end.

Definition to_csv (d : DataFrame) (filename : str) : M World unit :=
  write_file filename (csv_text d).

Definition usage : str := py "Usage: python download_stock.py <TICKER>".

Definition ticker_of (argv : list str) : str := upper (nth 1 argv []).

Definition filename_of (ticker : str) : str :=
  path_join (py "pre_stock") (ticker ++ py ".csv").

Definition download_stock (argv : list str) : M World unit :=
  if length argv <? 2 then
    (print usage ;; sys_exit 1)
  else
    let ticker := ticker_of argv in
    (data <-- yf_download ticker (py "1y") ;;
     makedirs (py "pre_stock") true ;;
     let filename := filename_of ticker in
     to_csv data filename ;;
     print (py "Downloaded data for " ++ ticker ++ py " to " ++ filename)).

End Downloader.

(** ** ml/model.py *)

(** Loops: [for a in l: st = body(a, st)]. *)
Fixpoint for_each {S A St} (l : list A) (body : A → St → M S St) (st : St) : M S St :=
  match l with
  | [] => ret st
  | a :: l' => st' <-- body a st ;; for_each l' body st'
  end.

Definition lift_exn {S A} (r : exn + A) : M S A :=
  match r with
  | inl e => raise e
  | inr a => ret a
  end.

(** Double-precision arithmetic and the global random generator of numpy.
    Seeding replaces the whole generator state. *)
Class NumPy := {
  F64 : Type;
  f_of_nat : nat → F64;
  f_lit : decimal_lit → F64;
  f_pi : F64;
  fadd : F64 → F64 → F64;
  fsub : F64 → F64 → F64;
  fmul : F64 → F64 → F64;
  fdiv : F64 → F64 → F64;
  f_is_zero : F64 → bool;
  fsin : F64 → F64;
  NpRng : Type;
  np_seed : Z → NpRng;
  np_rand : NpRng → F64 * NpRng;
  np_gauss : NpRng → F64 * NpRng
}.

(** The part of torch the script drives.  Tensors of rank 3 and 2 are nested
    lists, batch first.  A batch-first LSTM returns one output per time step
    of every sequence. *)
Class Torch `{NumPy} := {
  F32 : Type;
  f32 : F64 → F32;
  TorchRng : Type;
  torch_manual_seed : Z → TorchRng;
  LSTM : Type;
  Linear : Type;
  lstm_init : nat → nat → nat → bool → TorchRng → LSTM * TorchRng;
  linear_init : nat → nat → TorchRng → Linear * TorchRng;
  lstm_forward : LSTM → list (list (list F32)) → list (list (list F32));
  lstm_forward_steps : ∀ p x, map length (lstm_forward p x) = map length x;
  linear_forward : Linear → list (list F32) → list (list F32);
  mse_loss : list (list F32) → list (list F32) → F32;
  Grads : Type;
  autograd : LSTM → Linear → list (list (list F32)) → list (list F32) → Grads;
  grad_add : Grads → Grads → Grads;
  Adam : Type;
  adam_init : F64 → Adam;
  adam_step : Adam → LSTM → Linear → option Grads → LSTM * Linear * Adam;
  format_4f : F32 → str;
  state_dict_bytes : LSTM → Linear → list N
}.

Section Trainer.
Context `{Torch}.

(** *** numpy calls *)

Definition rand : M NpRng F64 :=
  λ g, let (u, g') := np_rand g in (Ret u, g').

(** [np.random.randn(n)]: [n] standard normal draws, in order. *)
Fixpoint randn (n : nat) : M NpRng (list F64) :=
  match n with
  | O => ret []
  | S n' =>
      λ g, let (z, g1) := np_gauss g in
           match randn n' g1 with
           | (Ret zs, g2) => (Ret (z :: zs), g2)
           | r => r
           end
  end.

Definition set_last {A} (l : list A) (v : A) : list A :=
  match l with
  | [] => []
  | _ => removelast l ++ [v]
  end.

(** [np.linspace(start, stop, num)] with the end point included: the indices
    [0 .. num-1] scaled by the step and shifted by [start], the last entry
    then overwritten with [stop]. *)
Definition np_linspace (start stop : F64) (num : nat) : list F64 :=
  let div := num - 1 in
  let y := map f_of_nat (seq 0 num) in
  let delta := fsub stop start in
  let y :=
    if 0 <? div then
      let step := fdiv delta (f_of_nat div) in
      if f_is_zero step
      then map (λ v, fmul (fdiv v (f_of_nat div)) delta) y
      else map (λ v, fmul v step) y
    else map (λ v, fmul v delta) y in
  let y := map (λ v, fadd v start) y in
  if 1 <? num then set_last y stop else y.

(** [np.array(X).reshape(-1, n, 1)] on the rows collected in [X]: the entries
    in row-major order are regrouped [n] at a time, each entry becoming a
    vector of length 1.  The free dimension cannot be inferred when [n = 0]
    or when [n] does not divide the number of entries. *)
Fixpoint regroup {A} (n rows : nat) (flat : list A) : list (list A) :=
  match rows with
  | O => []
  | S r => take n flat :: regroup n r (drop n flat)
  end.

Definition reshape_rows_n_1 {A} (n : nat) (X : list (list A)) : exn + list (list (list A)) :=
  let flat := concat X in
  if (n =? 0) || negb (length flat mod n =? 0) then inl ValueError
  else inr (map (map (λ v, [v])) (regroup n (length flat / n) flat)).

(** [y.reshape(-1, 1)]. *)
Definition reshape_rows_1 {A} (y : list A) : list (list A) :=
  map (λ v, [v]) y.

(** [torch.tensor(a, dtype=torch.float32)]. *)
Definition tensor3 (a : list (list (list F64))) : list (list (list F32)) :=
  map (map (map f32)) a.

Definition tensor2 (a : list (list F64)) : list (list F32) :=
  map (map f32) a.

(** *** create_synthetic_data *)

(** The array [data] of one pass of the loop. *)
Definition noisy_sine (seq_length : nat) : M NpRng (list F64) :=
  u <-- rand ;;
  let start := fmul (fmul u (f_of_nat 2)) f_pi in
  let xs := np_linspace start (fadd start f_pi) (seq_length + 1) in
  noise <-- randn (seq_length + 1) ;;
  ret (zip_with fadd (map fsin xs) (map (fmul (f_lit (Dec 1 (-1)))) noise)).

Definition sample_body (seq_length : nat) (_ : nat)
    (acc : list (list F64) * list F64) : M NpRng (list (list F64) * list F64) :=
  data <-- noisy_sine seq_length ;;
  match last data with
  | None => raise IndexError
  | Some label => ret (acc.1 ++ [removelast data], acc.2 ++ [label])
  end.

Definition create_synthetic_data (seq_length num_samples : nat)
    : M NpRng (list (list (list F32)) * list (list F32)) :=
  Xy <-- for_each (seq 0 num_samples) (sample_body seq_length) ([], []) ;;
  X <-- lift_exn (reshape_rows_n_1 seq_length Xy.1) ;;
  let y := reshape_rows_1 Xy.2 in
  ret (tensor3 X, tensor2 y).

(** *** LSTMModel *)

Record LSTMModel := mkModel {
  lstm : LSTM;
  fc : Linear;
  training : bool;
  grad : option Grads
}.

(** [out[:, -1, :]]: the last time step of every sequence of the batch. *)
Definition last_step {A} (out : list (list A)) : exn + list A :=
  match mapM last out with
  | Some rows => inr rows
  | None => inl IndexError
  end.

Definition forward (self : LSTMModel) (x : list (list (list F32))) : exn + list (list F32) :=
  let out := lstm_forward (lstm self) x in
  match last_step out with
  | inl e => inl e
  | inr out => inr (linear_forward (fc self) out)
  end.

(** *** The interpreter state of the trainer *)

Record Py := mkPy {
  world : World;
  np_rng : NpRng;
  torch_rng : TorchRng
}.

Definition liftW {A} (m : M World A) : M Py A :=
  λ s, let (r, w) := m (world s) in (r, mkPy w (np_rng s) (torch_rng s)).

Definition lift_np {A} (m : M NpRng A) : M Py A :=
  λ s, let (r, g) := m (np_rng s) in (r, mkPy (world s) g (torch_rng s)).

Definition log (e : Event) : M Py unit :=
  λ s, (Ret tt, mkPy (emit e (world s)) (np_rng s) (torch_rng s)).

(** Module level: [torch.manual_seed(0)] and [np.random.seed(0)]. *)
Definition seed_all : M Py unit :=
  λ s, (Ret tt, mkPy (world s) (np_seed 0) (torch_manual_seed 0)).

(** [LSTMModel(input_size, hidden_size, num_layers, output_size)]. *)
Definition new_LSTMModel (input_size hidden_size num_layers output_size : nat)
    : M Py LSTMModel :=
  log (ENewLSTM input_size hidden_size num_layers true) ;;
  log (ENewLinear hidden_size output_size) ;;
  λ s, let (l, g1) := lstm_init input_size hidden_size num_layers true (torch_rng s) in
       let (f, g2) := linear_init hidden_size output_size g1 in
       (Ret (mkModel l f true None), mkPy (world s) (np_rng s) g2).

Definition new_Adam (lr : decimal_lit) : M Py Adam :=
  log (ENewAdam lr) ;; ret (adam_init (f_lit lr)).

(** [loss.backward()] adds the gradient of the loss to the stored one. *)
Definition backward (model : LSTMModel) (x : list (list (list F32)))
    (y : list (list F32)) : LSTMModel :=
  let g := autograd (lstm model) (fc model) x y in
  mkModel (lstm model) (fc model) (training model)
          (Some match grad model with
                | None => g
                | Some g0 => grad_add g0 g
                end).

(** [optimizer.step()]. *)
Definition optimizer_step (model : LSTMModel) (optimizer : Adam)
    : M Py (LSTMModel * Adam) :=
  log EOptimStep ;;
  let '(l, f, o) := adam_step optimizer (lstm model) (fc model) (grad model) in
  ret (mkModel l f (training model) (grad model), o).

Definition epoch_line (epoch num_epochs : nat) (loss : F32) : str :=
  py "Epoch [" ++ str_of_nat (epoch + 1) ++ py "/" ++ str_of_nat num_epochs
    ++ py "], Loss: " ++ format_4f loss.

(** One pass of the training loop. *)
Definition epoch_body (X : list (list (list F32))) (y : list (list F32))
    (num_epochs epoch : nat) (st : LSTMModel * Adam) : M Py (LSTMModel * Adam) :=
  let '(model, optimizer) := st in
  let model := mkModel (lstm model) (fc model) true (grad model) in
  let model := mkModel (lstm model) (fc model) (training model) None in
  outputs <-- lift_exn (forward model X) ;;
  let loss := mse_loss outputs y in
  let model := backward model X y in
  st' <-- optimizer_step model optimizer ;;
  (if (epoch + 1) mod 10 =? 0
   then liftW (print (epoch_line epoch num_epochs loss))
   else ret tt) ;;
  ret st'.

(** *** train_model *)

Definition model_dir : str := py "../model".
Definition model_path : str := py "../model/lstm_model.pth".

(** Lines 47 to 75: hyperparameters, data, model, criterion, optimizer and the
    training loop. *)
Definition training_phase : M Py LSTMModel :=
  let input_size := 1 in
  let hidden_size := 50 in
  let num_layers := 2 in
  let output_size := 1 in
  let seq_length := 10 in
  let num_samples := 1000 in
  let num_epochs := 100 in
  let learning_rate := Dec 1 (-2) in
  Xy <-- lift_np (create_synthetic_data seq_length num_samples) ;;
  model <-- new_LSTMModel input_size hidden_size num_layers output_size ;;
  log ENewMSELoss ;;
  optimizer <-- new_Adam learning_rate ;;
  st <-- for_each (seq 0 num_epochs) (epoch_body Xy.1 Xy.2 num_epochs) (model, optimizer) ;;
  ret st.1.

(** Lines 77 to 81: the directory, the weights, the closing message. *)
Definition saving_phase (model : LSTMModel) : M Py unit :=
  liftW (makedirs model_dir true) ;;
  liftW (write_file model_path (state_dict_bytes (lstm model) (fc model))) ;;
  liftW (print (py "Model saved to " ++ model_path)).

Definition train_model : M Py unit :=
  model <-- training_phase ;;
  saving_phase model.

(** The script run as the main program. *)
Definition model_py : M Py unit :=
  seed_all ;; train_model.

(** *** The run of the trainer, step by step

    The arrays the data loop draws, the state the training loop is in before
    each epoch, and the loss each epoch computes. *)

Fixpoint samples (seq_length n : nat) (g : NpRng) : list (list F64) :=
  match n with
  | O => []
  | S n' =>
      match noisy_sine seq_length g with
      | (Ret d, g') => d :: samples seq_length n' g'
      | _ => []
      end
  end.

(** [data[:-1]] as one input sequence, [data[-1]] as its label. *)
Definition example_of (d : list F64) : list (list F32) :=
  map (λ v, [f32 v]) (removelast d).

Definition label_of (d : list F64) : list F32 :=
  match last d with
  | Some l => [f32 l]
  | None => []
  end.

(** An array of [seq_length + 1] values: the sine of equally spaced points
    from a start drawn uniformly in [0, 2 pi) to that start plus pi, plus 0.1
    times standard normal noise. *)
Definition is_noisy_sine (seq_length : nat) (d : list F64) : Prop :=
  ∃ g0 u g1 noise g2,
    np_rand g0 = (u, g1) ∧
    randn (seq_length + 1) g1 = (Ret noise, g2) ∧
    length noise = seq_length + 1 ∧
    let start := fmul (fmul u (f_of_nat 2)) f_pi in
    d = zip_with fadd
          (map fsin (np_linspace start (fadd start f_pi) (seq_length + 1)))
          (map (fmul (f_lit (Dec 1 (-1)))) noise).

(** The model and the optimizer the script builds. *)
Definition initial_state (t : TorchRng) : LSTMModel * Adam :=
  let (l, t1) := lstm_init 1 50 2 true t in
  let (f, _) := linear_init 50 1 t1 in
  (mkModel l f true None, adam_init (f_lit (Dec 1 (-2)))).

Definition outputs_of (model : LSTMModel) (X : list (list (list F32))) : list (list F32) :=
  linear_forward (fc model) (omap last (lstm_forward (lstm model) X)).

(** The state after one pass of the loop. *)
Definition epoch_next (X : list (list (list F32))) (y : list (list F32))
    (st : LSTMModel * Adam) : LSTMModel * Adam :=
  let model := backward (mkModel (lstm st.1) (fc st.1) true None) X y in
  let '(l, f, o) := adam_step st.2 (lstm model) (fc model) (grad model) in
  (mkModel l f (training model) (grad model), o).

Definition state_at (X : list (list (list F32))) (y : list (list F32))
    (st0 : LSTMModel * Adam) (epoch : nat) : LSTMModel * Adam :=
  Nat.iter epoch (epoch_next X y) st0.

Definition loss_at (X : list (list (list F32))) (y : list (list F32))
    (st0 : LSTMModel * Adam) (epoch : nat) : F32 :=
  mse_loss (outputs_of (state_at X y st0 epoch).1 X) y.

(** The calls of one epoch (counted from 0): the optimizer step, and the loss
    line when the epoch number is a multiple of 10. *)
Definition epoch_events (num_epochs epoch : nat) (loss : F32) : list Event :=
  EOptimStep ::
  (if (epoch + 1) mod 10 =? 0 then [EPrint (epoch_line epoch num_epochs loss)] else []).

Definition setup_events : list Event :=
  [ENewLSTM 1 50 2 true; ENewLinear 50 1; ENewMSELoss; ENewAdam (Dec 1 (-2))].

Definition training_events (X : list (list (list F32))) (y : list (list F32))
    (st0 : LSTMModel * Adam) : list Event :=
  setup_events ++
  flat_map (λ e, epoch_events 100 e (loss_at X y st0 e)) (seq 0 100).

Definition saved_line : str := py "Model saved to " ++ model_path.

(** What a run of the script computes, its generators being seeded with 0:
    the training data, the calls up to the end of the loop, the model after
    the last epoch and its serialized parameters. *)
Definition run_X : list (list (list F32)) := map example_of (samples 10 1000 (np_seed 0)).
Definition run_y : list (list F32) := map label_of (samples 10 1000 (np_seed 0)).

Definition run_events : list Event :=
  training_events run_X run_y (initial_state (torch_manual_seed 0)).

Definition trained_model : LSTMModel :=
  (state_at run_X run_y (initial_state (torch_manual_seed 0)) 100).1.

Definition weights : list N :=
  state_dict_bytes (lstm trained_model) (fc trained_model).

Definition save_events : list Event :=
  [EMakedirs model_dir true; EWrite model_path weights; EPrint saved_line].

(** Where [../model] and the weights file lie, seen from the working
    directory of [w]. *)
Definition model_dir_loc (w : World) : loc := parent (cwd w) ++ [py "model"].

Definition model_file_loc (w : World) : loc :=
  parent (cwd w) ++ [py "model"; py "lstm_model.pth"].


(** The generator after [n] passes of the data loop. *)
Fixpoint rng_after (seq_length n : nat) (g : NpRng) : NpRng :=
  match n with
  | O => g
  | S n' => rng_after seq_length n' (noisy_sine seq_length g).2
  end.

End Trainer.

(** ** Small instances of the interfaces, for running the scripts *)

Definition toy_unicode : UnicodeData := {| toupper_full := λ c, [c] |}.

(** A provider that answers every request with a table holding the ticker. *)
Definition toy_yfinance : YFinance :=
  {| DataFrame := str; provider := λ ticker _, inr ticker; csv_text := λ d, d |}.

(** Integers for floats, a counter for each generator. *)
Definition toy_numpy : NumPy :=
  {| F64 := Z;
     f_of_nat := Z.of_nat;
     f_lit := mantissa;
     f_pi := 3%Z;
     fadd := Z.add; fsub := Z.sub; fmul := Z.mul; fdiv := Z.div;
     f_is_zero := Z.eqb 0%Z;
     fsin := λ x, x;
     NpRng := Z;
     np_seed := λ n, n;
     np_rand := λ g, (g, (g + 1)%Z);
     np_gauss := λ g, (g, (g + 1)%Z) |}.

Definition toy_torch : @Torch toy_numpy :=
  {| F32 := Z;
     f32 := (λ x, x) : @F64 toy_numpy → Z;
     TorchRng := Z;
     torch_manual_seed := λ n, n;
     LSTM := Z;
     Linear := Z;
     lstm_init := λ _ _ _ _ g, (g, (g + 1)%Z);
     linear_init := λ _ _ g, (g, (g + 1)%Z);
     lstm_forward := λ _ x, x;
     lstm_forward_steps := λ _ _, eq_refl;
     linear_forward := λ f rows, map (map (Z.add f)) rows;
     mse_loss := λ out _, match out with (v :: _) :: _ => v | _ => 0%Z end;
     Grads := unit;
     autograd := λ _ _ _ _, tt;
     grad_add := λ _ _, tt;
     Adam := unit;
     adam_init := λ _, tt;
     adam_step := λ o l f _, (l, (f + 1)%Z, o);
     format_4f := λ x, str_of_nat (Z.to_nat x);
     state_dict_bytes := λ l f, [Z.to_N l; Z.to_N f] |}.

(** A provider that is out of reach. *)
Definition down_yfinance : YFinance :=
  {| DataFrame := str;
     provider := λ _ _, inl (LibraryError (py "ConnectionError"));
     csv_text := λ d, d |}.

(** A working directory [/home/u/stm/ml] inside an existing tree. *)
Definition home_fs : gmap (list (list N)) node :=
  list_to_map [([py "home"], Dir);
               ([py "home"; py "u"], Dir);
               ([py "home"; py "u"; py "stm"], Dir);
               ([py "home"; py "u"; py "stm"; py "ml"], Dir)].

Definition home_world : World :=
  mkWorld home_fs [py "home"; py "u"; py "stm"; py "ml"] ∅ [].

(** The same tree with a directory [/TMP]. *)
Definition tmp_world : World :=
  mkWorld (<[[py "TMP"] := Dir]> home_fs) [py "home"; py "u"; py "stm"; py "ml"] ∅ [].

Definition toy_py (g t : Z) : @Py toy_numpy toy_torch :=
  @mkPy toy_numpy toy_torch home_world g t.




(** * Properties *)

(** ** The monad and the operating-system calls *)

Lemma bind_ret_l {S A B} (m : M S A) (f : A → M S B) s a s' :
  m s = (Ret a, s') → bind m f s = f a s'.
Proof. intros E. unfold bind. by rewrite E. Qed.

Lemma same_frame_refl w : same_frame w w.
Proof. by repeat split. Qed.

Lemma same_frame_trans w1 w2 w3 :
  same_frame w1 w2 → same_frame w2 w3 → same_frame w1 w3.
Proof. intros (?&?&?) (?&?&?). repeat split; congruence. Qed.

Lemma mkdir_frame k w r w' : mkdir k w = (r, w') → same_frame w w'.
Proof.
  unfold mkdir. intros E.
  destruct (exists_at w k); [by inversion E; apply same_frame_refl|].
  destruct (node_at w (parent k)) as [[|c]|];
    try (by inversion E; apply same_frame_refl).
  destruct (bool_decide (k ∈ denied w)); inversion E; subst;
    by repeat split.
Qed.

Lemma mkdir_exist_ok_frame k ok w r w' :
  mkdir_exist_ok k ok w = (r, w') → same_frame w w'.
Proof.
  unfold mkdir_exist_ok.
  destruct (mkdir k w) as [[[]|e|c] w2] eqn:E; apply mkdir_frame in E.
  - by intros [= <- <-].
  - destruct (ok && isdir w2 k); by intros [= <- <-].
  - by intros [= <- <-].
Qed.

Lemma makedirs_aux_frame fuel : ∀ name ok w r w',
  makedirs_aux fuel name ok w = (r, w') → same_frame w w'.
Proof.
  induction fuel as [|fuel IH]; intros name ok w r w'; simpl;
    destruct (head_tail name) as [h t]; simpl;
    destruct (negb (bool_decide (h = [])) && negb (bool_decide (t = []))
              && negb (exists_at w (resolve (cwd w) h))).
  - intros [= <- <-]. apply same_frame_refl.
  - apply mkdir_exist_ok_frame.
  - destruct (makedirs_aux fuel h ok w) as [[[]|e|c] w1] eqn:E; apply IH in E.
    + destruct (bool_decide (t = py ".")).
      * by intros [= <- <-].
      * intros E2. apply mkdir_exist_ok_frame in E2.
        eapply same_frame_trans; eauto.
    + destruct e; try (by intros [= <- <-]).
      destruct (bool_decide (t = py ".")).
      * by intros [= <- <-].
      * intros E2. apply mkdir_exist_ok_frame in E2.
        eapply same_frame_trans; eauto.
    + by intros [= <- <-].
  - apply mkdir_exist_ok_frame.
Qed.

Lemma makedirs_frame name ok w r w' :
  makedirs name ok w = (r, w') →
  cwd w' = cwd w ∧ denied w' = denied w ∧ trace w' = trace w ++ [EMakedirs name ok].
Proof.
  unfold makedirs. intros E. apply makedirs_aux_frame in E.
  destruct E as (?&?&?). by repeat split.
Qed.

Lemma write_file_frame p c w r w' :
  write_file p c w = (r, w') →
  cwd w' = cwd w ∧ denied w' = denied w ∧ trace w' = trace w ++ [EWrite p c].
Proof.
  unfold write_file.
  destruct (bool_decide (p = [])); [by intros [= <- <-]|].
  destruct (isdir _ _); [by intros [= <- <-]|].
  destruct (node_at _ _) as [[|?]|]; try (by intros [= <- <-]).
  destruct (bool_decide _); by intros [= <- <-].
Qed.

(** A successful write leaves the file, with the content written, at the
    location the path resolves to. *)
Lemma write_file_ok p c w w' :
  write_file p c w = (Ret tt, w') →
  fs w' !! resolve (cwd w) p = Some (File c) ∧
  (∀ k, k ≠ resolve (cwd w) p → fs w' !! k = fs w !! k).
Proof.
  unfold write_file.
  destruct (bool_decide (p = [])); [by intros [=]|].
  destruct (isdir _ _); [by intros [=]|].
  destruct (node_at _ _) as [[|?]|]; try (by intros [=]).
  destruct (bool_decide _); [by intros [=]|].
  intros [= <-]. simpl. split.
  - apply lookup_insert_eq.
  - intros k Hk. by apply lookup_insert_ne.
Qed.

(** No operating-system call ends the process. *)
Lemma mkdir_exist_ok_no_exit k ok w c w' : mkdir_exist_ok k ok w ≠ (Exit c, w').
Proof.
  unfold mkdir_exist_ok, mkdir.
  destruct (exists_at w k).
  - by destruct (ok && isdir w k).
  - destruct (node_at w (parent k)) as [[|?]|].
    + destruct (bool_decide (k ∈ denied w)); [|done].
      by destruct (ok && isdir w k).
    + by destruct (ok && isdir w k).
    + by destruct (ok && isdir w k).
Qed.

Lemma makedirs_aux_no_exit fuel : ∀ name ok w c w',
  makedirs_aux fuel name ok w ≠ (Exit c, w').
Proof.
  induction fuel as [|fuel IH]; intros name ok w c w'; simpl;
    destruct (head_tail name) as [h t]; simpl;
    destruct (negb (bool_decide (h = [])) && negb (bool_decide (t = []))
              && negb (exists_at w (resolve (cwd w) h)));
    try done; try apply mkdir_exist_ok_no_exit.
  destruct (makedirs_aux fuel h ok w) as [[[]|e|c1] w1] eqn:E.
  - destruct (bool_decide (t = py ".")); [done|apply mkdir_exist_ok_no_exit].
  - destruct e; try done.
    destruct (bool_decide (t = py ".")); [done|apply mkdir_exist_ok_no_exit].
  - by apply IH in E.
Qed.

Lemma makedirs_no_exit name ok w c w' : makedirs name ok w ≠ (Exit c, w').
Proof. apply makedirs_aux_no_exit. Qed.

Lemma write_file_no_exit p x w c w' : write_file p x w ≠ (Exit c, w').
Proof.
  unfold write_file.
  destruct (bool_decide (p = [])); [done|].
  destruct (isdir _ _); [done|].
  destruct (node_at _ _) as [[|?]|]; try done.
  by destruct (bool_decide _).
Qed.

(** When the head of the name is empty or exists, [os.makedirs] is its last
    step alone. *)
Lemma makedirs_aux_flat fuel name ok w :
  (head_tail name).1 = [] ∨ exists_at w (resolve (cwd w) (head_tail name).1) = true →
  makedirs_aux fuel name ok w = mkdir_exist_ok (resolve (cwd w) name) ok w.
Proof.
  intros Hh.
  assert (negb (bool_decide ((head_tail name).1 = []))
          && negb (bool_decide ((head_tail name).2 = []))
          && negb (exists_at w (resolve (cwd w) (head_tail name).1)) = false) as Hc.
  { destruct Hh as [-> | ->].
    - done.
    - by rewrite andb_false_r. }
  destruct fuel; simpl; by rewrite Hc.
Qed.

Lemma mkdir_exist_ok_dir k w :
  isdir w k = true → mkdir_exist_ok k true w = (Ret tt, w).
Proof.
  intros Hd. unfold mkdir_exist_ok, mkdir.
  assert (exists_at w k = true) as ->.
  { unfold isdir, exists_at in *. by destruct (node_at w k). }
  simpl. by rewrite Hd.
Qed.

Lemma mkdir_exist_ok_absent k ok w :
  node_at w k = None → isdir w (parent k) = true → k ∉ denied w →
  mkdir_exist_ok k ok w = (Ret tt, with_fs (<[k := Dir]> (fs w)) w).
Proof.
  intros Hn Hp Hd. unfold mkdir_exist_ok, mkdir, exists_at, isdir in *.
  rewrite Hn. destruct (node_at w (parent k)) as [[|?]|]; try done.
  by rewrite bool_decide_eq_false_2.
Qed.


Lemma node_at_insert k v w :
  k ≠ [] → node_at (with_fs (<[k := v]> (fs w)) w) k = Some v.
Proof. intros Hk. destruct k; [done|]. simpl. apply lookup_insert_eq. Qed.

Lemma node_at_insert_ne k k' v w :
  k ≠ k' → node_at (with_fs (<[k := v]> (fs w)) w) k' = node_at w k'.
Proof. intros Hk. destruct k'; [done|]. simpl. by apply lookup_insert_ne. Qed.

(** After a successful [makedirs(..., exist_ok=True)] step the path is a
    directory. *)
Lemma mkdir_exist_ok_ret k w w' :
  mkdir_exist_ok k true w = (Ret tt, w') → isdir w' k = true.
Proof.
  unfold mkdir_exist_ok.
  destruct (mkdir k w) as [[[]|e|c] w2] eqn:E.
  - intros [= <-]. unfold mkdir in E.
    destruct (exists_at w k) eqn:Ex; [done|].
    destruct (node_at w (parent k)) as [[|?]|]; try done.
    destruct (bool_decide (k ∈ denied w)); [done|].
    injection E as <-. unfold isdir.
    destruct k; [done|]. by rewrite node_at_insert.
  - simpl. destruct (isdir w2 k) eqn:Hd; [|done]. by intros [= <-].
  - done.
Qed.

(** Where the two fixed directories and the weights file resolve to. *)
Lemma resolve_pre_stock c : resolve c (py "pre_stock") = c ++ [py "pre_stock"].
Proof. reflexivity. Qed.

Lemma resolve_model_dir c : resolve c (py "../model") = parent c ++ [py "model"].
Proof. reflexivity. Qed.

Lemma resolve_model_path c :
  resolve c (py "../model/lstm_model.pth")
  = parent c ++ [py "model"] ++ [py "lstm_model.pth"].
Proof. unfold resolve, parent. simpl. unfold enter. simpl. by rewrite <- app_assoc. Qed.

Lemma resolve_dotdot c : resolve c (py "..") = parent c.
Proof. reflexivity. Qed.

Lemma parent_snoc (k : loc) (c : str) : parent (k ++ [c]) = k.
Proof. unfold parent. apply removelast_last. Qed.

Lemma stdout_emit_print l w : stdout (emit (EPrint l) w) = stdout w ++ [l].
Proof. unfold stdout. simpl. by rewrite omap_app. Qed.

(** ** download_stock.py *)

Section DownloaderProps.
Context `{UnicodeData} `{YFinance}.

Lemma ticker_of_lookup argv t : argv !! 1 = Some t → ticker_of argv = upper t.
Proof.
  unfold ticker_of. destruct argv as [|a0 [|a1 rest]]; try done.
  by intros [= ->].
Qed.

Lemma lookup_1_length (argv : list str) :
  match argv !! 1 with
  | Some _ => (length argv <? 2) = false
  | None => (length argv <? 2) = true
  end.
Proof. by destruct argv as [|a0 [|a1 rest]]. Qed.

(** With an argument, the script is the four calls in sequence. *)
Lemma download_stock_steps argv w :
  2 ≤ length argv →
  download_stock argv w =
    (data <-- yf_download (ticker_of argv) (py "1y") ;;
     makedirs (py "pre_stock") true ;;
     to_csv data (filename_of (ticker_of argv)) ;;
     print (py "Downloaded data for " ++ ticker_of argv ++ py " to "
              ++ filename_of (ticker_of argv))) w.
Proof.
  intros Hl. unfold download_stock.
  destruct (Nat.ltb_spec (length argv) 2); [lia|done].
Qed.

(** The events of a run with an argument: a prefix of the four calls, complete
    exactly when the script runs to its end. *)
Lemma download_stock_trace argv w :
  2 ≤ length argv →
  let t := ticker_of argv in
  let r := download_stock argv w in
  (∃ e, provider t (py "1y") = inl e ∧ r.1 = Raise e
        ∧ trace r.2 = trace w ++ [EDownload t (py "1y")])
  ∨ (∃ data n, provider t (py "1y") = inr data
        ∧ trace r.2 = trace w ++
            take n [EDownload t (py "1y"); EMakedirs (py "pre_stock") true;
                    EWrite (filename_of t) (csv_text data);
                    EPrint (py "Downloaded data for " ++ t ++ py " to "
                              ++ filename_of t)]
        ∧ 2 ≤ n ∧ (r.1 = Ret tt ↔ n = 4) ∧ (∀ c, r.1 ≠ Exit c)).
Proof.
  intros Hl t r. subst r.
  destruct (download_stock argv w) as [o w'] eqn:Hr.
  rewrite download_stock_steps in Hr by done. fold t in Hr.
  unfold bind, yf_download, to_csv, print in Hr.
  destruct (provider t (py "1y")) as [e|data] eqn:Hp.
  { left. exists e. injection Hr as <- <-. by repeat split. }
  right. exists data.
  set (w0 := emit (EDownload t (py "1y")) w) in Hr.
  assert (trace w0 = trace w ++ [EDownload t (py "1y")]) as Et0 by done.
  destruct (makedirs (py "pre_stock") true w0) as [[[]|e|c] w1] eqn:Em;
    try (by apply makedirs_no_exit in Em);
    apply makedirs_frame in Em; destruct Em as (_ & _ & Et1);
    try (injection Hr as <- <-; exists 2; cbn [fst snd take];
         rewrite Et1, Et0, <- app_assoc;
         repeat split; try done; try lia; intros; discriminate).
  destruct (write_file (filename_of t) (csv_text data) w1) as [[[]|e|c] w2] eqn:Ew;
    try (by apply write_file_no_exit in Ew);
    apply write_file_frame in Ew; destruct Ew as (_ & _ & Et2);
    try (injection Hr as <- <-; exists 3; cbn [fst snd take];
         rewrite Et2, Et1, Et0, <- !app_assoc;
         repeat split; try done; try lia; intros; discriminate).
  injection Hr as <- <-. exists 4. cbn [fst snd take emit trace].
  rewrite Et2, Et1, Et0, <- !app_assoc.
  repeat split; try done; lia.
Qed.

(** Without an argument: the usage line, then [sys.exit(1)]. *)
Lemma download_stock_usage argv w :
  length argv < 2 → download_stock argv w = (Exit 1, emit (EPrint usage) w).
Proof.
  intros Hl. unfold download_stock.
  destruct (Nat.ltb_spec (length argv) 2); [done|lia].
Qed.

(** C1.  Invoked with fewer than two entries in [argv], the downloader prints
    the usage line and exits with status 1.  Invoked with a ticker it goes on
    to the download and never calls [sys.exit]; its status is 0 exactly when
    it runs to its end, which it does whenever the download, the directory
    step and the write succeed. *)
Theorem download_stock_exit_status argv w :
  (length argv < 2 →
     download_stock argv w = (Exit 1, emit (EPrint usage) w)
     ∧ exit_code (download_stock argv w).1 = 1%Z
     ∧ stdout (download_stock argv w).2 = stdout w ++ [usage]) ∧
  (2 ≤ length argv →
     let t := ticker_of argv in
     (∃ evs, trace (download_stock argv w).2
             = trace w ++ EDownload t (py "1y") :: evs) ∧
     (∀ c, (download_stock argv w).1 ≠ Exit c) ∧
     (exit_code (download_stock argv w).1 = 0%Z
      ↔ (download_stock argv w).1 = Ret tt) ∧
     (∀ data w1 w2,
        provider t (py "1y") = inr data →
        makedirs (py "pre_stock") true (emit (EDownload t (py "1y")) w)
          = (Ret tt, w1) →
        to_csv data (filename_of t) w1 = (Ret tt, w2) →
        (download_stock argv w).1 = Ret tt
        ∧ exit_code (download_stock argv w).1 = 0%Z)).
Proof.
  split.
  - intros Hl. rewrite download_stock_usage by done.
    repeat split. apply stdout_emit_print.
  - intros Hl t.
    assert (∀ c, (download_stock argv w).1 ≠ Exit c) as Hne.
    { destruct (download_stock_trace argv w Hl) as [(e & _ & Hr & _)|(d & n & _ & _ & _ & _ & Hx)].
      - intros c. rewrite Hr. discriminate.
      - done. }
    split; [|split; [|split; [split|]]].
    + destruct (download_stock_trace argv w Hl) as [(e & _ & _ & Ht)|(d & n & _ & Ht & Hn & _)].
      * exists []. exact Ht.
      * destruct n as [|n]; [lia|]. eexists. exact Ht.
    + exact Hne.
    + destruct (download_stock argv w).1 as [[]|e|c]; try done.
      intros _. by destruct (Hne c).
    + by intros ->.
    + intros data w1 w2 Hp Hm Hc.
      rewrite download_stock_steps by done. fold t.
      unfold bind, yf_download. by rewrite Hp, Hm, Hc.
Qed.

(** Joining [pre_stock] with a file name that does not start with a
    separator puts the separator between them. *)
Lemma filename_of_relative (T : str) :
  startswith_sep T = false →
  filename_of T = py "pre_stock/" ++ T ++ py ".csv".
Proof.
  intros Hs. unfold filename_of, path_join.
  assert (startswith_sep (T ++ py ".csv") = false) as ->.
  { destruct T; [reflexivity|exact Hs]. }
  reflexivity.
Qed.

Lemma upper_aapl : upper (py "aapl") = py "AAPL".
Proof. reflexivity. Qed.

(** C2, as the code has it.  For every ticker argument whose upper-cased
    form does not begin with the path separator, the file name is
    [pre_stock/<TICKER>.csv] with the ticker upper-cased: every write of the
    run goes to that path and carries the CSV text of the table downloaded
    for the upper-cased ticker, and after a run that reaches its end the file
    at that path holds it.  For the ticker [aapl] the path is
    [pre_stock/AAPL.csv]. *)
Theorem download_writes_ticker_csv argv t w :
  argv !! 1 = Some t →
  startswith_sep (upper t) = false →
  let path := py "pre_stock/" ++ upper t ++ py ".csv" in
  ticker_of argv = upper t ∧
  filename_of (upper t) = path ∧
  (∀ evs p c, trace (download_stock argv w).2 = trace w ++ evs →
     EWrite p c ∈ evs →
     p = path ∧ ∃ data, provider (upper t) (py "1y") = inr data ∧ c = csv_text data) ∧
  ((download_stock argv w).1 = Ret tt →
     ∃ data, provider (upper t) (py "1y") = inr data ∧
             fs (download_stock argv w).2 !! resolve (cwd w) path
             = Some (File (csv_text data))) ∧
  filename_of (upper (py "aapl")) = py "pre_stock/AAPL.csv".
Proof.
  intros Ha Hs path.
  pose proof (ticker_of_lookup argv t Ha) as Ht.
  pose proof (filename_of_relative (upper t) Hs) as Hf. fold path in Hf.
  assert (2 ≤ length argv) as Hl.
  { apply lookup_lt_Some in Ha. lia. }
  split; [done|]. split; [done|]. split; [|split; [|reflexivity]].
  - intros evs p c Hev Hin.
    destruct (download_stock_trace argv w Hl) as [(e & _ & _ & Htr)|(d & n & Hp & Htr & _)];
      rewrite Hev in Htr; apply app_inv_head in Htr; subst evs.
    + apply list_elem_of_singleton in Hin. discriminate.
    + apply elem_of_take in Hin as (i & Hi & _).
      rewrite Ht in Hi, Hp. rewrite Hf in Hi.
      destruct i as [|[|[|[|i]]]]; simpl in Hi; try discriminate.
      injection Hi as <- <-. split; [done|]. by exists d.
  - rewrite download_stock_steps by done. rewrite Ht, Hf.
    unfold bind, yf_download, to_csv, print.
    destruct (provider (upper t) (py "1y")) as [e|d]; [done|].
    destruct (makedirs _ _ _) as [[[]|e|c] w1] eqn:Em; try done.
    apply makedirs_frame in Em as (Hc & _ & _).
    destruct (write_file _ _ _) as [[[]|e|c] w2] eqn:Ew; try done.
    intros _. exists d. split; [done|].
    apply write_file_ok in Ew as [Hw _].
    simpl in Hc. rewrite Hc in Hw. exact Hw.
Qed.

(** C7.  Every write of a run is preceded, in the same run, by the call
    [os.makedirs("pre_stock", exist_ok=True)].  Once the download has
    succeeded that call does not fail when [pre_stock] is already a
    directory, and creates it when it is absent (the working directory
    existing and the creation being permitted); either way [pre_stock] is a
    directory, nothing else has changed, and the script goes on to the write
    from there. *)
Theorem download_makedirs_before_write argv w :
  (∀ pre p c post,
     trace (download_stock argv w).2 = trace w ++ pre ++ EWrite p c :: post →
     EMakedirs (py "pre_stock") true ∈ pre) ∧
  (∀ data, 2 ≤ length argv →
     let t := ticker_of argv in
     let d := cwd w ++ [py "pre_stock"] in
     provider t (py "1y") = inr data →
     isdir w d = true
     ∨ (node_at w d = None ∧ isdir w (cwd w) = true ∧ d ∉ denied w) →
     ∃ w1,
       makedirs (py "pre_stock") true (emit (EDownload t (py "1y")) w)
         = (Ret tt, w1)
       ∧ isdir w1 d = true
       ∧ (∀ k, k ≠ d → fs w1 !! k = fs w !! k)
       ∧ download_stock argv w =
           (to_csv data (filename_of t) ;;
            print (py "Downloaded data for " ++ t ++ py " to " ++ filename_of t)) w1).
Proof.
  split.
  - intros pre p c post Htr.
    destruct (Nat.lt_ge_cases (length argv) 2) as [Hl|Hl].
    + rewrite download_stock_usage in Htr by done. simpl in Htr.
      apply app_inv_head in Htr.
      destruct pre as [|e1 [|e2 pre]]; discriminate.
    + destruct (download_stock_trace argv w Hl) as [(e & _ & _ & Ht)|(d & n & _ & Ht & Hn & _)];
        rewrite Htr in Ht; apply app_inv_head in Ht.
      * destruct pre as [|e1 [|e2 pre]]; discriminate.
      * destruct n as [|[|n]]; [lia|lia|]. simpl in Ht.
        destruct pre as [|e1 [|e2 pre]]; try discriminate.
        injection Ht as -> -> _. set_solver.
  - intros data Hl t d Hp Hd.
    assert (∃ w1, makedirs (py "pre_stock") true (emit (EDownload t (py "1y")) w)
                  = (Ret tt, w1)
                  ∧ isdir w1 d = true ∧ (∀ k, k ≠ d → fs w1 !! k = fs w !! k))
      as (w1 & Em & Hd1 & Hfs).
    { unfold makedirs. rewrite makedirs_aux_flat by (by left).
      cbn [cwd emit]. rewrite resolve_pre_stock. fold d.
      destruct Hd as [Hd|(Hn & Hc & Hden)].
      - eexists. split; [by apply mkdir_exist_ok_dir|]. by split.
      - eexists. split.
        + apply mkdir_exist_ok_absent; try done.
          subst d. by rewrite parent_snoc.
        + split.
          * unfold isdir. rewrite node_at_insert; [done|].
            subst d. by destruct (cwd w).
          * intros k Hk. simpl. by apply lookup_insert_ne. }
    exists w1. repeat split; try done.
    rewrite download_stock_steps by done. fold t.
    unfold bind at 1. unfold yf_download. rewrite Hp.
    unfold bind at 1. by rewrite Em.
Qed.

(** C10.  Two invocations with the same entry at [argv[1]] behave alike,
    whatever the program name and the further arguments are: the same ticker,
    the same file name, and from the same world the same outcome and the same
    final world (file system and calls made). *)
Theorem download_depends_on_first_arg argv argv' w :
  argv !! 1 = argv' !! 1 →
  ticker_of argv = ticker_of argv'
  ∧ filename_of (ticker_of argv) = filename_of (ticker_of argv')
  ∧ download_stock argv w = download_stock argv' w.
Proof.
  intros Heq.
  assert (ticker_of argv = ticker_of argv') as Ht.
  { unfold ticker_of.
    destruct argv as [|a0 [|a1 r]], argv' as [|b0 [|b1 r']];
      simpl in *; congruence. }
  split; [done|]. split; [by rewrite Ht|].
  unfold download_stock. rewrite <- Ht.
  pose proof (lookup_1_length argv) as L1.
  pose proof (lookup_1_length argv') as L2.
  rewrite <- Heq in L2.
  destruct (argv !! 1); by rewrite L1, L2.
Qed.

End DownloaderProps.

(** *** The downloader on concrete inputs *)

Lemma download_stock_exit_status_witness :
  (length [py "download_stock.py"] < 2
   ∧ exit_code (@download_stock toy_unicode toy_yfinance
                  [py "download_stock.py"] home_world).1 = 1%Z)
  ∧ (2 ≤ length [py "download_stock.py"; py "aapl"]
     ∧ exit_code (@download_stock toy_unicode toy_yfinance
                    [py "download_stock.py"; py "aapl"] home_world).1 = 0%Z).
Proof.
  split.
  - split; [simpl; lia|].
    apply (@download_stock_exit_status toy_unicode toy_yfinance
             [py "download_stock.py"] home_world).
    simpl; lia.
  - split; [simpl; lia|].
    destruct (@download_stock_exit_status toy_unicode toy_yfinance
                [py "download_stock.py"; py "aapl"] home_world) as [_ Hb].
    destruct Hb as (_ & _ & _ & Hok); [simpl; lia|].
    eapply (Hok (py "AAPL")
              (makedirs (py "pre_stock") true
                 (emit (EDownload (py "AAPL") (py "1y")) home_world)).2
              (@to_csv toy_yfinance (py "AAPL") (py "pre_stock/AAPL.csv")
                 (makedirs (py "pre_stock") true
                    (emit (EDownload (py "AAPL") (py "1y")) home_world)).2).2);
      vm_compute; reflexivity.
Defined.

Lemma download_writes_ticker_csv_witness :
  [py "download_stock.py"; py "aapl"] !! 1 = Some (py "aapl")
  ∧ startswith_sep (@upper toy_unicode (py "aapl")) = false
  ∧ fs (@download_stock toy_unicode toy_yfinance
          [py "download_stock.py"; py "aapl"] home_world).2
      !! [py "home"; py "u"; py "stm"; py "ml"; py "pre_stock"; py "AAPL.csv"]
    = Some (File (py "AAPL")).
Proof.
  split; [reflexivity|]. split; [reflexivity|].
  destruct (@download_writes_ticker_csv toy_unicode toy_yfinance
              [py "download_stock.py"; py "aapl"] (py "aapl") home_world
              eq_refl eq_refl) as (_ & _ & _ & Hrun & _).
  destruct Hrun as (data & Hp & Hfs); [vm_compute; reflexivity|].
  injection Hp as <-. exact Hfs.
Defined.

(** C2 as stated fails for a ticker that starts with the separator:
    [os.path.join] drops [pre_stock], and [/tmp/x] is written to
    [/TMP/X.csv], nothing to [pre_stock//TMP/X.csv]. *)
Lemma download_absolute_ticker_leaves_pre_stock :
  let argv := [py "download_stock.py"; py "/tmp/x"] in
  let r := @download_stock toy_unicode toy_yfinance argv tmp_world in
  r.1 = Ret tt
  ∧ @ticker_of toy_unicode argv = py "/TMP/X"
  ∧ trace r.2 = [EDownload (py "/TMP/X") (py "1y");
                 EMakedirs (py "pre_stock") true;
                 EWrite (py "/TMP/X.csv") (py "/TMP/X");
                 EPrint (py "Downloaded data for /TMP/X to /TMP/X.csv")]
  ∧ py "/TMP/X.csv" ≠ py "pre_stock/" ++ py "/TMP/X" ++ py ".csv"
  ∧ fs r.2 !! [py "TMP"; py "X.csv"] = Some (File (py "/TMP/X"))
  ∧ fs r.2 !! resolve (cwd tmp_world) (py "pre_stock/" ++ py "/TMP/X" ++ py ".csv")
    = None.
Proof. vm_compute. repeat split; discriminate. Qed.

Lemma download_makedirs_before_write_witness :
  2 ≤ length [py "download_stock.py"; py "aapl"]
  ∧ node_at home_world (cwd home_world ++ [py "pre_stock"]) = None
  ∧ ∃ w1,
      makedirs (py "pre_stock") true
        (emit (EDownload (py "AAPL") (py "1y")) home_world) = (Ret tt, w1)
      ∧ isdir w1 (cwd home_world ++ [py "pre_stock"]) = true.
Proof.
  split; [simpl; lia|]. split; [reflexivity|].
  destruct (@download_makedirs_before_write toy_unicode toy_yfinance
              [py "download_stock.py"; py "aapl"] home_world) as [_ Hb].
  destruct (Hb (py "AAPL")) as (w1 & Hm & Hd & _).
  - simpl; lia.
  - reflexivity.
  - right. split; [reflexivity|]. split; [reflexivity|]. simpl. set_solver.
  - exists w1. split; [exact Hm|exact Hd].
Defined.

Lemma download_depends_on_first_arg_witness :
  [py "download_stock.py"; py "msft"; py "--force"] !! 1
    = [py "dl"; py "msft"] !! 1
  ∧ @download_stock toy_unicode toy_yfinance
      [py "download_stock.py"; py "msft"; py "--force"] home_world
    = @download_stock toy_unicode toy_yfinance [py "dl"; py "msft"] home_world.
Proof.
  split; [reflexivity|].
  apply (@download_depends_on_first_arg toy_unicode toy_yfinance).
  reflexivity.
Defined.

(** ** ml/model.py: the synthetic data *)

Section TrainerProps.
Context `{Torch}.

Lemma randn_ok n : ∀ g, ∃ zs g', randn n g = (Ret zs, g') ∧ length zs = n.
Proof.
  induction n as [|n IH]; intros g; simpl.
  - by exists [], g.
  - destruct (np_gauss g) as [z g1].
    destruct (IH g1) as (zs & g2 & -> & Hl).
    exists (z :: zs), g2. split; [done|]. simpl. by rewrite Hl.
Qed.

Lemma removelast_length {A} (l : list A) : length (removelast l) = length l - 1.
Proof.
  induction l as [|a l IH]; [done|].
  destruct l as [|b l]; [done|].
  change (removelast (a :: b :: l)) with (a :: removelast (b :: l)).
  simpl length in *. rewrite IH. lia.
Qed.

Lemma set_last_length {A} (l : list A) v : length (set_last l v) = length l.
Proof.
  destruct l as [|a l]; [done|]. unfold set_last.
  rewrite length_app, removelast_length. simpl. lia.
Qed.

Lemma np_linspace_length start stop num :
  length (np_linspace start stop num) = num.
Proof.
  unfold np_linspace.
  assert (∀ f : F64 → F64, length (map (λ v, fadd v start) (map f (map f_of_nat (seq 0 num)))) = num) as Hm.
  { intros f. by rewrite !length_map, length_seq. }
  destruct (1 <? num); [rewrite set_last_length|];
    destruct (0 <? num - 1); try destruct (f_is_zero _); apply Hm.
Qed.

(** One pass of the data loop always yields its array. *)
Lemma noisy_sine_ok seq_length g :
  ∃ d g', noisy_sine seq_length g = (Ret d, g')
          ∧ length d = seq_length + 1 ∧ is_noisy_sine seq_length d.
Proof.
  unfold noisy_sine, bind, rand.
  destruct (np_rand g) as [u g1] eqn:Hu.
  destruct (randn_ok (seq_length + 1) g1) as (noise & g2 & Hn & Hl).
  rewrite Hn. eexists _, g2. split; [reflexivity|]. split.
  - rewrite length_zip_with, !length_map, np_linspace_length, Hl. lia.
  - by exists g, u, g1, noise, g2.
Qed.

Lemma samples_spec seq_length n : ∀ g,
  length (samples seq_length n g) = n
  ∧ Forall (λ d, length d = seq_length + 1 ∧ is_noisy_sine seq_length d)
           (samples seq_length n g).
Proof.
  induction n as [|n IH]; intros g; simpl; [by split|].
  destruct (noisy_sine_ok seq_length g) as (d & g' & -> & Hl & Hs).
  destruct (IH g') as [IHl IHf]. split.
  - simpl. by rewrite IHl.
  - by constructor.
Qed.

(** The data loop appends [data[:-1]] and [data[-1]] of each array drawn. *)
Lemma sample_loop_run seq_length n : ∀ a acc g,
  ∃ g', for_each (seq a n) (sample_body seq_length) acc g
        = (Ret (acc.1 ++ map (λ d, removelast d) (samples seq_length n g),
                acc.2 ++ omap last (samples seq_length n g)), g').
Proof.
  induction n as [|n IH]; intros a [accX accy] g; simpl.
  - exists g. unfold ret. simpl. by rewrite !app_nil_r.
  - unfold bind at 1. unfold sample_body at 1. unfold bind at 1.
    destruct (noisy_sine_ok seq_length g) as (d & g1 & -> & Hl & _).
    destruct (last d) as [l|] eqn:Hlast.
    + unfold ret at 1.
      destruct (IH (S a) ((accX, accy).1 ++ [removelast d], (accX, accy).2 ++ [l]) g1)
        as (g2 & ->).
      exists g2. simpl. rewrite Hlast. simpl. by rewrite <- !app_assoc.
    + apply last_None in Hlast. subst d. simpl in Hl. lia.
Qed.

Lemma regroup_concat {A} (n : nat) (rows : list (list A)) :
  Forall (λ r, length r = n) rows →
  regroup n (length rows) (concat rows) = rows.
Proof.
  induction 1 as [|r rows Hr _ IH]; simpl; [done|].
  rewrite take_app_length' by done. rewrite drop_app_length' by done.
  by rewrite IH.
Qed.

Lemma concat_length_uniform {A} (n : nat) (rows : list (list A)) :
  Forall (λ r, length r = n) rows → length (concat rows) = length rows * n.
Proof.
  induction 1 as [|r rows Hr _ IH]; simpl; [done|].
  rewrite length_app, IH, Hr. lia.
Qed.

Lemma reshape_rows_n_1_ok {A} (n : nat) (rows : list (list A)) :
  0 < n → Forall (λ r, length r = n) rows →
  reshape_rows_n_1 n rows = inr (map (map (λ v, [v])) rows).
Proof.
  intros Hn Hr. unfold reshape_rows_n_1.
  rewrite (concat_length_uniform n rows Hr).
  destruct (Nat.eqb_spec n 0) as [->|_]; [lia|]. simpl.
  rewrite Nat.Div0.mod_mul. simpl.
  rewrite Nat.div_mul by lia. by rewrite regroup_concat.
Qed.

(** The whole of [create_synthetic_data], for a positive sequence length. *)
Lemma create_synthetic_data_run seq_length num_samples g :
  0 < seq_length →
  ∃ g', create_synthetic_data seq_length num_samples g
        = (Ret (map example_of (samples seq_length num_samples g),
                map label_of (samples seq_length num_samples g)), g').
Proof.
  intros Hn. unfold create_synthetic_data.
  destruct (sample_loop_run seq_length num_samples 0 ([], []) g) as (g' & Hloop).
  destruct (samples_spec seq_length num_samples g) as [_ Hs].
  set (S := samples seq_length num_samples g) in *.
  exists g'. unfold bind at 1. rewrite Hloop. cbn [fst snd app].
  rewrite reshape_rows_n_1_ok; [|done|].
  - unfold bind, lift_exn, ret.
    assert (tensor3 (map (map (λ v, [v])) (map (λ d, removelast d) S))
            = map example_of S) as ->.
    { unfold tensor3, example_of. rewrite !map_map. apply map_ext.
      intros d. by rewrite map_map. }
    assert (tensor2 (reshape_rows_1 (omap last S)) = map label_of S) as ->; [|done].
    unfold tensor2, reshape_rows_1, label_of. clear Hloop.
    induction Hs as [|d S' [Hd _] _ IH]; [done|].
    simpl. destruct (last d) as [l|] eqn:Hl.
    + simpl. f_equal. exact IH.
    + apply last_None in Hl. subst d. simpl in Hd. lia.
  - apply Forall_map. eapply Forall_impl; [exact Hs|].
    intros d [Hd _]. simpl. rewrite removelast_length. lia.
Qed.

(** The 11 points of the script's [np.linspace] call: equally spaced by a
    tenth of the span, the last one being the end point itself. *)
Lemma np_linspace_11 (start stop : F64) :
  let step := fdiv (fsub stop start) (f_of_nat 10) in
  length (np_linspace start stop 11) = 11
  ∧ np_linspace start stop 11 !! 10 = Some stop
  ∧ (f_is_zero step = false →
     ∀ i, i < 10 →
       np_linspace start stop 11 !! i = Some (fadd (fmul (f_of_nat i) step) start)).
Proof.
  intros step. split; [apply np_linspace_length|].
  unfold np_linspace. cbn [Nat.sub Nat.ltb Nat.leb seq map].
  fold step. split.
  - by destruct (f_is_zero step).
  - intros -> i Hi.
    do 10 (destruct i as [|i]; [reflexivity|]). lia.
Qed.

(** C3.  The generator state is fixed when the module is loaded, so the data
    a run generates does not depend on the state the interpreter started in:
    two runs with the same arguments yield the same pair [(X, y)], the one
    drawn from the generator seeded with 0.  The same holds of the script as
    a whole: from the same world, two runs end alike. *)
Theorem synthetic_data_deterministic (s1 s2 : Py) (seq_length num_samples : nat) :
  ((seed_all ;; lift_np (create_synthetic_data seq_length num_samples)) s1).1
  = ((seed_all ;; lift_np (create_synthetic_data seq_length num_samples)) s2).1
  ∧ ((seed_all ;; lift_np (create_synthetic_data seq_length num_samples)) s1).1
    = (create_synthetic_data seq_length num_samples (np_seed 0)).1
  ∧ (∀ w g1 t1 g2 t2, model_py (mkPy w g1 t1) = model_py (mkPy w g2 t2)).
Proof.
  split; [|split].
  - unfold bind, seed_all, lift_np. cbn [np_rng].
    by destruct (create_synthetic_data seq_length num_samples (np_seed 0)) as [r g].
  - unfold bind, seed_all, lift_np. cbn [np_rng].
    by destruct (create_synthetic_data seq_length num_samples (np_seed 0)) as [r g].
  - intros w g1 t1 g2 t2. unfold model_py.
    rewrite (bind_ret_l seed_all _ (mkPy w g1 t1) tt
               (mkPy w (np_seed 0) (torch_manual_seed 0)) eq_refl).
    rewrite (bind_ret_l seed_all _ (mkPy w g2 t2) tt
               (mkPy w (np_seed 0) (torch_manual_seed 0)) eq_refl).
    reflexivity.
Qed.

(** C4.  [create_synthetic_data(10, 1000)] returns 1000 examples.  Example
    [i] is the first 10 values of the [i]-th array drawn, an 11-point noisy
    sine (the sine of 11 equally spaced points from a random start to that
    start plus pi, plus 0.1 times Gaussian noise), and its label is the 11th
    value of the same array.  [X] has shape (1000, 10, 1) and [y] has shape
    (1000, 1). *)
Theorem create_synthetic_data_10_1000 (g : NpRng) :
  let S := samples 10 1000 g in
  ∃ X y g',
    create_synthetic_data 10 1000 g = (Ret (X, y), g') ∧
    length S = 1000 ∧ X = map example_of S ∧ y = map label_of S ∧
    length X = 1000 ∧ length y = 1000 ∧
    Forall (λ ex, length ex = 10 ∧ Forall (λ v, length v = 1) ex) X ∧
    Forall (λ l, length l = 1) y ∧
    (∀ i d, S !! i = Some d →
       is_noisy_sine 10 d ∧ length d = 11 ∧
       X !! i = Some (map (λ v, [f32 v]) (take 10 d)) ∧
       ∃ l, d !! 10 = Some l ∧ y !! i = Some [f32 l]) ∧
    (∀ start,
       let stop := fadd start f_pi in
       let step := fdiv (fsub stop start) (f_of_nat 10) in
       length (np_linspace start stop 11) = 11
       ∧ np_linspace start stop 11 !! 10 = Some stop
       ∧ (f_is_zero step = false →
          ∀ i, i < 10 →
            np_linspace start stop 11 !! i
            = Some (fadd (fmul (f_of_nat i) step) start))).
Proof.
  intros S.
  destruct (create_synthetic_data_run 10 1000 g) as (g' & Hrun); [lia|].
  destruct (samples_spec 10 1000 g) as [Hlen Hall]. fold S in Hrun, Hlen, Hall.
  assert (∀ d, length d = 10 + 1 →
               example_of d = map (λ v, [f32 v]) (take 10 d)
               ∧ ∃ l, d !! 10 = Some l ∧ label_of d = [f32 l]) as Hd.
  { intros d Hl. split.
    - unfold example_of. rewrite removelast_firstn_len, Hl. reflexivity.
    - unfold label_of. rewrite last_lookup, Hl. simpl.
      destruct (d !! 10) as [l|] eqn:E; [by exists l|].
      apply lookup_ge_None in E. lia. }
  exists (map example_of S), (map label_of S), g'.
  split; [exact Hrun|]. split; [exact Hlen|]. split; [done|]. split; [done|].
  split; [by rewrite length_map|]. split; [by rewrite length_map|].
  split; [|split; [|split]]; [| | |intros start; apply np_linspace_11].
  - apply Forall_map. eapply Forall_impl; [exact Hall|].
    intros d [Hl _]. simpl. destruct (Hd d Hl) as [-> _].
    rewrite length_map, length_take, Hl. split; [lia|].
    apply Forall_map. by apply Forall_true.
  - apply Forall_map. eapply Forall_impl; [exact Hall|].
    intros d [Hl _]. simpl. by destruct (Hd d Hl) as [_ (l & _ & ->)].
  - intros i d Hi.
    rewrite Forall_lookup in Hall. destruct (Hall i d Hi) as [Hl Hs].
    destruct (Hd d Hl) as [Hex (l & Hl10 & Hlab)].
    split; [done|]. split; [done|]. split.
    + by rewrite list_lookup_fmap, Hi, <- Hex.
    + exists l. split; [done|]. by rewrite list_lookup_fmap, Hi, <- Hlab.
Qed.

(** ** ml/model.py: the training loop *)

Lemma emits_nil w : emits [] w = w.
Proof. destruct w. unfold emits. simpl. by rewrite app_nil_r. Qed.

Lemma emits_emits a b w : emits b (emits a w) = emits (a ++ b) w.
Proof. unfold emits. simpl. by rewrite app_assoc. Qed.

Lemma emit_emits e w : emit e w = emits [e] w.
Proof. done. Qed.

(** On sequences that are not empty the forward pass does not fail. *)
Lemma last_step_ok {A} (out : list (list A)) :
  Forall (λ r, r ≠ []) out → last_step out = inr (omap last out).
Proof.
  intros Hne. unfold last_step.
  assert (mapM last out = Some (omap last out)) as ->; [|done].
  induction Hne as [|r out Hr _ IH]; [done|].
  destruct (last r) as [v|] eqn:Hl.
  - simpl. rewrite Hl. simpl. rewrite IH. simpl. done.
  - by apply last_None in Hl.
Qed.

Lemma forward_ok (model : LSTMModel) (X : list (list (list F32))) :
  Forall (λ r, r ≠ []) X → forward model X = inr (outputs_of model X).
Proof.
  intros Hne. unfold forward, outputs_of.
  rewrite last_step_ok; [done|].
  pose proof (lstm_forward_steps (lstm model) X) as Hs.
  revert Hs. generalize (lstm_forward (lstm model) X). intros out.
  revert out. induction Hne as [|r X Hr _ IH]; intros [|o out] Hs; try done.
  injection Hs as Hl Hs. constructor; [|by apply IH].
  intros ->. by destruct r.
Qed.

Lemma epoch_body_run X y N e (st : LSTMModel * Adam) (s : Py) :
  Forall (λ r, r ≠ []) X →
  epoch_body X y N e st s
  = (Ret (epoch_next X y st),
     mkPy (emits (epoch_events N e (mse_loss (outputs_of st.1 X) y)) (world s))
          (np_rng s) (torch_rng s)).
Proof.
  intros Hne. destruct st as [model optimizer].
  unfold epoch_body, epoch_next, epoch_events.
  rewrite forward_ok by done.
  unfold bind at 1. unfold lift_exn, ret at 1.
  unfold bind at 1. unfold optimizer_step. unfold bind at 1. unfold log.
  cbn [fst snd lstm fc grad training backward world np_rng torch_rng].
  destruct (adam_step optimizer (lstm model) (fc model)
              (Some (autograd (lstm model) (fc model) X y))) as [[l f] o].
  unfold ret at 1. unfold bind at 1.
  unfold outputs_of. cbn [lstm fc].
  destruct ((e + 1) mod 10 =? 0).
  - unfold liftW, print, ret. cbn [world np_rng torch_rng].
    by rewrite !emit_emits, emits_emits.
  - unfold ret. by rewrite emit_emits.
Qed.

Lemma state_at_succ X y st e :
  state_at X y (epoch_next X y st) e = epoch_next X y (state_at X y st e).
Proof.
  unfold state_at. induction e as [|e IH]; [done|]. simpl. by rewrite IH.
Qed.

Lemma flat_map_fmap {A B C} (f : B → list C) (g : A → B) (l : list A) :
  flat_map f (map g l) = flat_map (λ x, f (g x)) l.
Proof. induction l as [|a l IH]; [done|]. simpl. by rewrite IH. Qed.

(** The loop over the epochs [a, a+1, ..., a+n-1] from state [st]. *)
Lemma training_loop_run X y N n :
  Forall (λ r, r ≠ []) X →
  ∀ a st (s : Py),
    for_each (seq a n) (epoch_body X y N) st s
    = (Ret (state_at X y st n),
       mkPy (emits (flat_map (λ i, epoch_events N (a + i) (loss_at X y st i)) (seq 0 n))
                   (world s))
            (np_rng s) (torch_rng s)).
Proof.
  intros Hne. induction n as [|n IH]; intros a st s.
  - simpl. unfold ret. rewrite emits_nil. by destruct s.
  - cbn [seq for_each]. unfold bind at 1. rewrite epoch_body_run by done.
    rewrite IH. cbn [world np_rng torch_rng].
    rewrite emits_emits, state_at_succ. f_equal. f_equal. f_equal.
    cbn [flat_map]. rewrite Nat.add_0_r. f_equal.
    rewrite <- seq_shift, flat_map_fmap.
    apply flat_map_ext. intros i.
    unfold loss_at. rewrite state_at_succ.
    by replace (S a + i) with (a + S i) by lia.
Qed.

Lemma examples_nonempty (g : NpRng) n :
  Forall (λ r : list (list F32), r ≠ []) (map example_of (samples 10 n g)).
Proof.
  apply Forall_map. destruct (samples_spec 10 n g) as [_ Hall].
  eapply Forall_impl; [exact Hall|].
  intros d [Hl _]. simpl. unfold example_of. intros Heq.
  apply (f_equal length) in Heq.
  rewrite length_map, removelast_length, Hl in Heq. simpl in Heq. lia.
Qed.

(** Lines 47 to 75 never fail: the data, the model, the 100 passes. *)
Lemma training_phase_run (w : World) (g : NpRng) (t : TorchRng) :
  let X := map example_of (samples 10 1000 g) in
  let y := map label_of (samples 10 1000 g) in
  let st0 := initial_state t in
  ∃ g' t',
    create_synthetic_data 10 1000 g = (Ret (X, y), g') ∧
    training_phase (mkPy w g t)
    = (Ret (state_at X y st0 100).1,
       mkPy (emits (training_events X y st0) w) g' t').
Proof.
  intros X y st0.
  destruct (create_synthetic_data_run 10 1000 g) as (g' & Hrun); [lia|].
  fold X y in Hrun.
  unfold training_phase. unfold bind at 1. unfold lift_np.
  cbn [world np_rng torch_rng]. rewrite Hrun.
  unfold new_LSTMModel, new_Adam, log, bind, ret.
  cbn [world np_rng torch_rng fst snd].
  subst st0. unfold initial_state.
  destruct (lstm_init 1 50 2 true t) as [l t1].
  destruct (linear_init 50 1 t1) as [f t2].
  exists g', t2. split; [done|].
  rewrite (training_loop_run X y 100 100 (examples_nonempty _ _) 0).
  cbn [world np_rng torch_rng fst snd].
  f_equal. f_equal. unfold training_events, setup_events.
  by rewrite !emit_emits, !emits_emits.
Qed.

Lemma stdout_emits evs w : stdout (emits evs w) = stdout w ++ omap printed evs.
Proof. unfold stdout. simpl. by rewrite omap_app. Qed.

Lemma optim_steps_count N (f : nat → F32) (l : list nat) :
  length (List.filter is_optim_step (flat_map (λ e, epoch_events N e (f e)) l))
  = length l.
Proof.
  induction l as [|e l IH]; [done|].
  cbn [flat_map]. rewrite List.filter_app, length_app, IH.
  unfold epoch_events. by destruct ((e + 1) mod 10 =? 0).
Qed.

Lemma no_write_in_epochs N (f : nat → F32) (l : list nat) :
  List.filter is_write (flat_map (λ e, epoch_events N e (f e)) l) = [].
Proof.
  induction l as [|e l IH]; [done|].
  cbn [flat_map]. rewrite List.filter_app, IH.
  unfold epoch_events. by destruct ((e + 1) mod 10 =? 0).
Qed.

(** Of 100 passes, the ones that print are the passes 9, 19, ..., 99, that is
    the epochs 10, 20, ..., 100. *)
Lemma loop_lines (line : nat → str) :
  omap printed
    (flat_map (λ e, EOptimStep :: (if (e + 1) mod 10 =? 0 then [EPrint (line e)] else []))
              (seq 0 100))
  = map (λ k, line (10 * k + 9)) (seq 0 10).
Proof. vm_compute. reflexivity. Qed.

(** C5.  The trainer builds a 2-layer LSTM with input size 1 and hidden size
    50 and a linear head from 50 to 1, the MSE criterion and Adam with
    learning rate 0.01, and then makes exactly 100 passes of the training
    loop, each with one optimizer step.  The pass for epoch number [n]
    (1 to 100) prints its loss line exactly when [n] is a multiple of 10: the
    lines printed are those of the epochs 10, 20, ..., 100, in this order,
    each with the loss of its own pass. *)
Theorem training_runs_100_epochs (s : Py) :
  ∃ X y g',
    create_synthetic_data 10 1000 (np_rng s) = (Ret (X, y), g') ∧
    let st0 := initial_state (torch_rng s) in
    let r := training_phase s in
    let loop :=
      flat_map (λ e, EOptimStep ::
                     (if (e + 1) mod 10 =? 0
                      then [EPrint (epoch_line e 100 (loss_at X y st0 e))]
                      else []))
               (seq 0 100) in
    r.1 = Ret (state_at X y st0 100).1 ∧
    fs (world r.2) = fs (world s) ∧
    trace (world r.2)
    = trace (world s)
      ++ [ENewLSTM 1 50 2 true; ENewLinear 50 1; ENewMSELoss; ENewAdam (Dec 1 (-2))]
      ++ loop ∧
    length (List.filter is_optim_step loop) = 100 ∧
    stdout (world r.2)
    = stdout (world s)
      ++ map (λ k, py "Epoch [" ++ str_of_nat (10 * (k + 1)) ++ py "/100], Loss: "
                     ++ format_4f (loss_at X y st0 (10 * k + 9)))
             (seq 0 10) ∧
    (∀ e, ∃ out, forward (state_at X y st0 e).1 X = inr out
                 ∧ loss_at X y st0 e = mse_loss out y).
Proof.
  destruct s as [w g t].
  destruct (training_phase_run w g t) as (g' & t' & Hdata & Hrun).
  eexists _, _, g'. cbn [world np_rng torch_rng].
  split; [exact Hdata|].
  cbn zeta. rewrite Hrun. cbn [fst snd world].
  split; [done|]. split; [done|]. split; [done|]. split; [|split].
  - apply (optim_steps_count 100 (loss_at _ _ _) (seq 0 100)).
  - rewrite stdout_emits. apply (f_equal (app (stdout w))).
    unfold training_events, setup_events. rewrite omap_app.
    etransitivity;
      [exact (loop_lines (λ e, epoch_line e 100 (loss_at _ _ _ e)))|].
    apply map_ext. intros k. unfold epoch_line.
    replace (10 * k + 9 + 1) with (10 * (k + 1)) by lia.
    change (str_of_nat 100) with (py "100").
    change (py "/100], Loss: ") with (py "/" ++ py "100" ++ py "], Loss: ").
    by rewrite <- !app_assoc.
  - intros e. eexists. split; [|reflexivity].
    apply forward_ok, examples_nonempty.
Qed.

(** ** ml/model.py: saving the weights *)

Lemma isdir_insert_ne k k' v w :
  k ≠ k' → isdir (with_fs (<[k := v]> (fs w)) w) k' = isdir w k'.
Proof. intros Hk. unfold isdir. by rewrite node_at_insert_ne. Qed.

Lemma mkdir_exist_ok_ret_fs k w w' :
  mkdir_exist_ok k true w = (Ret tt, w') →
  w' = w ∨ (node_at w k = None ∧ w' = with_fs (<[k := Dir]> (fs w)) w).
Proof.
  unfold mkdir_exist_ok.
  destruct (mkdir k w) as [[[]|e|c] w2] eqn:E.
  - intros [= <-]. right. unfold mkdir, exists_at in E.
    destruct (node_at w k) eqn:Hn; [done|].
    destruct (node_at w (parent k)) as [[|?]|]; try done.
    destruct (bool_decide (k ∈ denied w)); [done|].
    by injection E as <-.
  - unfold mkdir in E.
    assert (w2 = w) as ->.
    { destruct (exists_at w k); [by injection E|].
      destruct (node_at w (parent k)) as [[|?]|]; try (by injection E).
      destruct (bool_decide (k ∈ denied w)); by injection E. }
    simpl. destruct (isdir w k); [|done]. intros [= <-]. by left.
  - done.
Qed.

Lemma write_file_ret p c w w' :
  write_file p c w = (Ret tt, w') →
(resolve (cwd w) p ∉ denied w)
  ∧ isdir w (parent (resolve (cwd w) p)) = true
  ∧ w' = with_fs (<[resolve (cwd w) p := File c]> (fs w)) (emit (EWrite p c) w).
Proof.
  unfold write_file.
  destruct (bool_decide (p = [])); [by intros [=]|].
  destruct (isdir _ _); [by intros [=]|].
  cbn [cwd emit]. unfold isdir.
  destruct (node_at _ _) as [[|?]|]; try (by intros [=]).
  destruct (bool_decide _) eqn:Hd; [by intros [=]|].
  intros [= <-]. apply bool_decide_eq_false in Hd. by repeat split.
Qed.

Lemma write_file_run p c w :
  p ≠ [] →
  isdir w (resolve (cwd w) p) = false →
  isdir w (parent (resolve (cwd w) p)) = true →
  write_file p c w
  = if bool_decide (resolve (cwd w) p ∈ denied w)
    then (Raise PermissionError, emit (EWrite p c) w)
    else (Ret tt, with_fs (<[resolve (cwd w) p := File c]> (fs w)) (emit (EWrite p c) w)).
Proof.
  intros Hp Hk Hpar. unfold write_file.
  rewrite bool_decide_eq_false_2 by done.
  cbn [cwd emit denied].
  change (isdir (emit (EWrite p c) w) (resolve (cwd w) p))
    with (isdir w (resolve (cwd w) p)).
  rewrite Hk.
  change (node_at (emit (EWrite p c) w) (parent (resolve (cwd w) p)))
    with (node_at w (parent (resolve (cwd w) p))).
  unfold isdir in Hpar.
  by destruct (node_at w (parent (resolve (cwd w) p))) as [[|?]|].
Qed.

(** Where the project root exists, [os.makedirs("../model")] is its last
    step alone. *)
Lemma makedirs_model_dir_flat w :
  isdir w (parent (cwd w)) = true →
  makedirs model_dir true w
  = mkdir_exist_ok (model_dir_loc w) true (emit (EMakedirs model_dir true) w).
Proof.
  intros Hroot. unfold makedirs. apply makedirs_aux_flat. right.
  change (head_tail model_dir).1 with (py "..").
  cbn [cwd emit]. rewrite resolve_dotdot.
  unfold isdir, exists_at in *.
  change (node_at (emit (EMakedirs model_dir true) w) (parent (cwd w)))
    with (node_at w (parent (cwd w))).
  by destruct (node_at w (parent (cwd w))).
Qed.

Lemma model_file_parent w : parent (model_file_loc w) = model_dir_loc w.
Proof.
  unfold model_file_loc, model_dir_loc.
  change [py "model"; py "lstm_model.pth"] with ([py "model"] ++ [py "lstm_model.pth"]).
  by rewrite app_assoc, parent_snoc.
Qed.

Lemma model_dir_parent w : parent (model_dir_loc w) = parent (cwd w).
Proof. unfold model_dir_loc. by rewrite parent_snoc. Qed.

Lemma model_locs_distinct w :
  model_dir_loc w ≠ model_file_loc w
  ∧ model_dir_loc w ≠ parent (cwd w)
  ∧ model_file_loc w ≠ parent (cwd w)
  ∧ model_dir_loc w ≠ [] ∧ model_file_loc w ≠ [].
Proof.
  unfold model_dir_loc, model_file_loc.
  repeat split; intros Heq; apply (f_equal length) in Heq;
    rewrite ?length_app in Heq; simpl in Heq; lia.
Qed.

Lemma resolve_model_path_loc w : resolve (cwd w) model_path = model_file_loc w.
Proof. unfold model_path. by rewrite resolve_model_path. Qed.

(** The three calls of lines 77 to 81, one after the other. *)
Lemma saving_phase_steps (m : LSTMModel) (s : Py) :
  saving_phase m s =
    match makedirs model_dir true (world s) with
    | (Ret _, w1) =>
        match write_file model_path (state_dict_bytes (lstm m) (fc m)) w1 with
        | (Ret _, w2) =>
            (Ret tt, mkPy (emit (EPrint saved_line) w2) (np_rng s) (torch_rng s))
        | (Raise e, w2) => (Raise e, mkPy w2 (np_rng s) (torch_rng s))
        | (Exit c, w2) => (Exit c, mkPy w2 (np_rng s) (torch_rng s))
        end
    | (Raise e, w1) => (Raise e, mkPy w1 (np_rng s) (torch_rng s))
    | (Exit c, w1) => (Exit c, mkPy w1 (np_rng s) (torch_rng s))
    end.
Proof.
  unfold saving_phase, bind, liftW, print.
  destruct (makedirs model_dir true (world s)) as [[[]|e|c] w1]; try done.
  cbn [world np_rng torch_rng].
  destruct (write_file _ _ w1) as [[[]|e|c] w2]; done.
Qed.

(** The script as a whole: seeding, training, then the saving phase on the
    trained model, the world having gained the events of the training. *)
Lemma model_py_run (s : Py) :
  ∃ g' t',
    model_py s
    = saving_phase trained_model (mkPy (emits run_events (world s)) g' t').
Proof.
  destruct (training_phase_run (world s) (np_seed 0) (torch_manual_seed 0))
    as (g' & t' & _ & Hrun).
  exists g', t'. unfold model_py.
  rewrite (bind_ret_l seed_all _ s tt
             (mkPy (world s) (np_seed 0) (torch_manual_seed 0)) eq_refl).
  unfold train_model.
  apply (bind_ret_l training_phase saving_phase _ _ _ Hrun).
Qed.

(** The events of the saving phase: a prefix of its three calls, complete
    exactly when the phase succeeds. *)
Lemma saving_phase_trace (m : LSTMModel) (s : Py) :
  ∃ n, 1 ≤ n ≤ 3
       ∧ trace (world (saving_phase m s).2)
         = trace (world s)
           ++ take n [EMakedirs model_dir true;
                      EWrite model_path (state_dict_bytes (lstm m) (fc m));
                      EPrint saved_line]
       ∧ ((saving_phase m s).1 = Ret tt ↔ n = 3)
       ∧ cwd (world (saving_phase m s).2) = cwd (world s)
       ∧ denied (world (saving_phase m s).2) = denied (world s).
Proof.
  rewrite saving_phase_steps.
  destruct (makedirs model_dir true (world s)) as [[[]|e|c] w1] eqn:Em;
    try (by apply makedirs_no_exit in Em);
    apply makedirs_frame in Em as (Hc1 & Hd1 & Ht1).
  - destruct (write_file _ _ w1) as [[[]|e|c] w2] eqn:Ew;
      try (by apply write_file_no_exit in Ew);
      apply write_file_frame in Ew as (Hc2 & Hd2 & Ht2).
    + exists 3. cbn [fst snd world emit trace cwd denied take].
      rewrite Ht2, Ht1, <- !app_assoc. repeat split; try lia; congruence.
    + exists 2. cbn [fst snd world take].
      rewrite Ht2, Ht1, <- !app_assoc. repeat split; try lia; try congruence; done.
  - exists 1. cbn [fst snd world take].
    rewrite Ht1. repeat split; try lia; try congruence; done.
Qed.


Lemma no_write_in_training : List.filter is_write run_events = [].
Proof.
  unfold run_events, training_events. rewrite List.filter_app.
  by rewrite (no_write_in_epochs 100 (loss_at _ _ _)).
Qed.

(** The saving phase where the project root exists: what the directory step
    and the write do, case by case. *)
Lemma saving_phase_run (m : LSTMModel) (s : Py) :
  let w := world s in
  let D := model_dir_loc w in
  let F := model_file_loc w in
  let bytes := state_dict_bytes (lstm m) (fc m) in
  isdir w (parent (cwd w)) = true →
  (node_at w D = None ∧ D ∈ denied w →
     (saving_phase m s).1 = Raise PermissionError
     ∧ fs (world (saving_phase m s).2) = fs w) ∧
  (isdir w D = true ∨ (node_at w D = None ∧ D ∉ denied w) →
   isdir w F = false →
   (F ∈ denied w → (saving_phase m s).1 = Raise PermissionError) ∧
   (F ∉ denied w →
      (saving_phase m s).1 = Ret tt
      ∧ fs (world (saving_phase m s).2) !! F = Some (File bytes)
      ∧ isdir (world (saving_phase m s).2) D = true
      ∧ isdir (world (saving_phase m s).2) (parent (cwd w)) = true)).
Proof.
  intros w D F bytes Hroot.
  pose proof (model_locs_distinct w) as (HDF & HDr & HFr & HD0 & HF0).
  fold D F in HDF, HDr, HFr, HD0, HF0.
  rewrite saving_phase_steps. fold w. rewrite makedirs_model_dir_flat by done.
  fold D. set (w0 := emit (EMakedirs model_dir true) w).
  split.
  - intros [Hn Hden]. unfold mkdir_exist_ok, mkdir, exists_at, isdir.
    change (node_at w0 D) with (node_at w D). rewrite Hn.
    change (node_at w0 (parent D)) with (node_at w (parent D)).
    subst D. rewrite model_dir_parent.
    unfold isdir in Hroot. destruct (node_at w (parent (cwd w))) as [[|?]|]; try done.
    change (denied w0) with (denied w).
    rewrite bool_decide_eq_true_2 by done. simpl.
    change (node_at w0 (model_dir_loc w)) with (node_at w (model_dir_loc w)).
    by rewrite Hn.
  - intros HD HF.
    assert (∃ w1, mkdir_exist_ok D true w0 = (Ret tt, w1)
                  ∧ cwd w1 = cwd w ∧ denied w1 = denied w
                  ∧ isdir w1 D = true ∧ isdir w1 F = false
                  ∧ isdir w1 (parent (cwd w)) = true)
      as (w1 & -> & Hc1 & Hd1 & HD1 & HF1 & Hr1).
    { destruct HD as [HD|[Hn Hden]].
      - exists w0. split; [by apply mkdir_exist_ok_dir|]. by repeat split.
      - exists (with_fs (<[D := Dir]> (fs w0)) w0). split.
        + apply mkdir_exist_ok_absent; try done.
          subst D. by rewrite model_dir_parent.
        + repeat split; try done.
          * unfold isdir. by rewrite node_at_insert.
          * by rewrite isdir_insert_ne.
          * by rewrite isdir_insert_ne. }
    assert (resolve (cwd w1) model_path = F) as Hres.
    { rewrite Hc1. apply resolve_model_path_loc. }
    rewrite write_file_run; rewrite ?Hres; try done.
    + rewrite Hd1. split; intros Hden.
      * by rewrite bool_decide_eq_true_2.
      * rewrite bool_decide_eq_false_2 by done.
        cbn [fst snd world emit with_fs fs].
        split; [done|]. split; [apply lookup_insert_eq|].
        split.
        -- change (isdir (with_fs (<[F := File bytes]> (fs w1)) w1) D = true).
           by rewrite isdir_insert_ne.
        -- change (isdir (with_fs (<[F := File bytes]> (fs w1)) w1) (parent (cwd w)) = true).
           by rewrite isdir_insert_ne.
    + subst F. by rewrite model_file_parent.
Qed.

Lemma node_at_nonempty w (k : loc) : k ≠ [] → node_at w k = fs w !! k.
Proof. by destruct k. Qed.

(** What a successful saving phase leaves behind. *)
Lemma saving_phase_ret (m : LSTMModel) (s : Py) :
  let w := world s in
  let w' := world (saving_phase m s).2 in
  isdir w (parent (cwd w)) = true →
  (saving_phase m s).1 = Ret tt →
  fs w' !! model_file_loc w = Some (File (state_dict_bytes (lstm m) (fc m)))
  ∧ isdir w' (model_dir_loc w) = true
  ∧ isdir w' (parent (cwd w)) = true
  ∧ (model_file_loc w ∉ denied w)
  ∧ cwd w' = cwd w ∧ denied w' = denied w.
Proof.
  intros w w' Hroot. subst w'.
  pose proof (model_locs_distinct w) as (HDF & HDr & HFr & HD0 & HF0).
  rewrite saving_phase_steps. fold w. rewrite makedirs_model_dir_flat by done.
  set (w0 := emit (EMakedirs model_dir true) w).
  destruct (mkdir_exist_ok (model_dir_loc w) true w0) as [[[]|e|c] w1] eqn:Em;
    try done.
  pose proof (mkdir_exist_ok_ret _ _ _ Em) as HD1.
  pose proof (mkdir_exist_ok_frame _ _ _ _ _ Em) as (Hc1 & Hd1 & _).
  assert (isdir w1 (parent (cwd w)) = true) as Hr1.
  { destruct (mkdir_exist_ok_ret_fs _ _ _ Em) as [->|[_ ->]]; [done|].
    by rewrite isdir_insert_ne. }
  destruct (write_file model_path (state_dict_bytes (lstm m) (fc m)) w1)
    as [[[]|e|c] w2] eqn:Ew; try done.
  apply write_file_ret in Ew as (Hden & _ & ->).
  rewrite Hc1, Hd1 in Hden. change (cwd w0) with (cwd w) in Hden.
  rewrite resolve_model_path_loc in Hden.
  rewrite Hc1. change (cwd w0) with (cwd w). rewrite resolve_model_path_loc.
  intros _. cbn [fst snd world emit with_fs fs cwd denied].
  split; [apply lookup_insert_eq|].
  split.
  { change (isdir (with_fs (<[model_file_loc w := File (state_dict_bytes (lstm m) (fc m))]> (fs w1)) w1)
                  (model_dir_loc w) = true).
    rewrite isdir_insert_ne; [done|]. by intros Heq; apply HDF. }
  split.
  { change (isdir (with_fs (<[model_file_loc w := File (state_dict_bytes (lstm m) (fc m))]> (fs w1)) w1)
                  (parent (cwd w)) = true).
    by rewrite isdir_insert_ne. }
  by repeat split.
Qed.

Lemma optim_steps_in_training : length (List.filter is_optim_step run_events) = 100.
Proof.
  unfold run_events, training_events. rewrite List.filter_app, length_app.
  by rewrite (optim_steps_count 100 (loss_at _ _ _)).
Qed.

(** C6.  A run makes its 100 optimizer steps without any write, then calls
    [os.makedirs] and then writes the parameters of the trained model to
    [../model/lstm_model.pth]: in a run that reaches its end this is the only
    write.  A file already at that path is replaced by the new parameters,
    and a second run after a successful first one succeeds as well and
    leaves them there (the parent of the working directory existing). *)
Theorem weights_saved_once_after_loop (s : Py) :
  let w := world s in
  let r := model_py s in
  (∃ n, 1 ≤ n ≤ 3
        ∧ trace (world r.2) = trace w ++ run_events ++ take n save_events
        ∧ (r.1 = Ret tt ↔ n = 3)) ∧
  List.filter is_write run_events = [] ∧
  length (List.filter is_optim_step run_events) = 100 ∧
  (r.1 = Ret tt →
     trace (world r.2) = trace w ++ run_events ++ save_events
     ∧ List.filter is_write (run_events ++ save_events) = [EWrite model_path weights]) ∧
  (∀ old,
     isdir w (parent (cwd w)) = true →
     isdir w (model_dir_loc w) = true →
     fs w !! model_file_loc w = Some (File old) →
     model_file_loc w ∉ denied w →
     r.1 = Ret tt ∧ fs (world r.2) !! model_file_loc w = Some (File weights)) ∧
  (r.1 = Ret tt →
   isdir w (parent (cwd w)) = true →
   fs (world r.2) !! model_file_loc w = Some (File weights)
   ∧ ∀ s2, world s2 = world r.2 →
       (model_py s2).1 = Ret tt
       ∧ fs (world (model_py s2).2) !! model_file_loc w = Some (File weights)).
Proof.
  intros w r. subst r.
  pose proof no_write_in_training as Hnw.
  pose proof optim_steps_in_training as Hsteps.
  pose proof (model_locs_distinct w) as (HDF & HDr & HFr & HD0 & HF0).
  assert (∀ s2, ∃ g2 t2, model_py s2
            = saving_phase trained_model (mkPy (emits run_events (world s2)) g2 t2))
    as Hpy by apply model_py_run.
  unfold save_events, weights.
  revert Hnw Hsteps Hpy. generalize run_events trained_model.
  intros E m Hnw Hsteps Hpy.
  destruct (Hpy s) as (g' & t' & ->). fold w.
  set (s' := mkPy (emits E w) g' t').
  destruct (saving_phase_trace m s') as (n & Hn & Htr & Hok & Hc & Hd).
  change (trace (world s')) with (trace w ++ E) in Htr.
  rewrite <- app_assoc in Htr.
  split; [by exists n|]. split; [done|]. split; [done|].
  split; [|split].
  - intros Hret. apply Hok in Hret. subst n. split; [exact Htr|].
    rewrite List.filter_app, Hnw. reflexivity.
  - intros old Hroot HD HF Hden.
    assert (isdir w (model_file_loc w) = false) as HFd.
    { unfold isdir. by rewrite node_at_nonempty, HF. }
    destruct (saving_phase_run m s' Hroot) as [_ Hrun].
    destruct (Hrun (or_introl HD) HFd) as [_ Hgo].
    destruct (Hgo Hden) as (Hret & Hfs & _). by split.
  - intros Hret Hroot.
    pose proof (saving_phase_ret m s' Hroot Hret) as Hpost.
    set (w' := world (saving_phase m s').2) in *.
    change (fs w' !! model_file_loc w = Some (File (state_dict_bytes (lstm m) (fc m)))
            ∧ isdir w' (model_dir_loc w) = true
            ∧ isdir w' (parent (cwd w)) = true
            ∧ (model_file_loc w ∉ denied w)
            ∧ cwd w' = cwd w ∧ denied w' = denied w) in Hpost.
    destruct Hpost as (Hfs & HD' & Hr' & Hden & Hc' & Hd').
    split; [exact Hfs|].
    intros s2 Hw2. destruct (Hpy s2) as (g2 & t2 & ->).
    set (s2' := mkPy (emits E (world s2)) g2 t2).
    assert (cwd (world s2) = cwd w) as Hcw by (rewrite Hw2; exact Hc').
    assert (model_dir_loc (world s2') = model_dir_loc w) as HeD.
    { unfold model_dir_loc. cbn [s2' world emits cwd]. by rewrite Hcw. }
    assert (model_file_loc (world s2') = model_file_loc w) as HeF.
    { unfold model_file_loc. cbn [s2' world emits cwd]. by rewrite Hcw. }
    assert (isdir (world s2') (parent (cwd (world s2'))) = true) as Hroot2.
    { cbn [s2' world emits cwd]. rewrite Hcw.
      change (isdir (world s2) (parent (cwd w)) = true). by rewrite Hw2. }
    destruct (saving_phase_run m s2' Hroot2) as [_ Hrun].
    rewrite HeD, HeF in Hrun.
    assert (isdir (world s2') (model_dir_loc w) = true) as HD2.
    { change (isdir (world s2) (model_dir_loc w) = true). by rewrite Hw2. }
    assert (isdir (world s2') (model_file_loc w) = false) as HF2.
    { change (isdir (world s2) (model_file_loc w) = false). rewrite Hw2.
      unfold isdir. by rewrite node_at_nonempty, Hfs. }
    destruct (Hrun (or_introl HD2) HF2) as [_ Hgo].
    destruct Hgo as (Hret2 & Hfs2 & _).
    { change (model_file_loc w ∉ denied (world s2)). rewrite Hw2.
      by rewrite Hd'. }
    by split.
Qed.


End TrainerProps.

(** *** The trainer on concrete inputs *)

Lemma create_synthetic_data_10_1000_witness :
  ∃ d, @samples toy_numpy 10 1000 0%Z !! 3 = Some d
       ∧ length d = 11
       ∧ ∃ X y g', @create_synthetic_data toy_numpy toy_torch 10 1000 0%Z
                   = (Ret (X, y), g')
                   ∧ X !! 3 = Some (map (λ v, [v]) (take 10 d)).
Proof.
  destruct (@create_synthetic_data_10_1000 toy_numpy toy_torch 0%Z)
    as (X & y & g' & Hrun & _ & _ & _ & _ & _ & _ & _ & Hi & _).
  destruct (@samples toy_numpy 10 1000 0%Z !! 3) as [d|] eqn:Hd;
    [|vm_compute in Hd; discriminate].
  destruct (Hi 3 d Hd) as (_ & Hl & HX & _).
  exists d. split; [reflexivity|]. split; [exact Hl|].
  exists X, y, g'. split; [exact Hrun|exact HX].
Defined.

Lemma weights_saved_once_after_loop_witness :
  (@model_py toy_numpy toy_torch (toy_py 5 7)).1 = Ret tt
  ∧ isdir home_world (parent (cwd home_world)) = true
  ∧ ∀ s2, world s2 = world (@model_py toy_numpy toy_torch (toy_py 5 7)).2 →
      (@model_py toy_numpy toy_torch s2).1 = Ret tt
      ∧ fs (world (@model_py toy_numpy toy_torch s2).2)
          !! model_file_loc home_world
        = Some (File (@weights toy_numpy toy_torch)).
Proof.
  assert ((@model_py toy_numpy toy_torch (toy_py 5 7)).1 = Ret tt) as Hret
    by (vm_compute; reflexivity).
  split; [exact Hret|]. split; [reflexivity|].
  destruct (@weights_saved_once_after_loop toy_numpy toy_torch (toy_py 5 7))
    as (_ & _ & _ & _ & _ & Hagain).
  destruct (Hagain Hret eq_refl) as [_ Hs2]. exact Hs2.
Defined.


(** The run of the trainer on the small instance: ten loss lines, for the
    epochs 10 to 100, and the closing message. *)
Example toy_run_stdout :
  stdout (world (@model_py toy_numpy toy_torch (toy_py 5 7)).2)
  = [py "Epoch [10/100], Loss: 20"; py "Epoch [20/100], Loss: 30";
     py "Epoch [30/100], Loss: 40"; py "Epoch [40/100], Loss: 50";
     py "Epoch [50/100], Loss: 60"; py "Epoch [60/100], Loss: 70";
     py "Epoch [70/100], Loss: 80"; py "Epoch [80/100], Loss: 90";
     py "Epoch [90/100], Loss: 100"; py "Epoch [100/100], Loss: 110";
     py "Model saved to ../model/lstm_model.pth"].
Proof. vm_compute. reflexivity. Qed.

(** [exist_ok] covers an existing directory only: where [pre_stock] is a
    regular file, [os.makedirs] raises and nothing is written. *)
Example pre_stock_is_a_file :
  let w := mkWorld (<[[py "home"; py "u"; py "stm"; py "ml"; py "pre_stock"] := File []]> home_fs)
                   [py "home"; py "u"; py "stm"; py "ml"] ∅ [] in
  let r := @download_stock toy_unicode toy_yfinance
             [py "download_stock.py"; py "aapl"] w in
  r.1 = Raise FileExistsError
  ∧ trace r.2 = [EDownload (py "AAPL") (py "1y"); EMakedirs (py "pre_stock") true].
Proof. vm_compute. split; reflexivity. Qed.

(** * Further properties of the two scripts *)

(** ** The operating-system calls, case by case *)

Lemma isdir_same_fs w w' k : fs w = fs w' → isdir w k = isdir w' k.
Proof. intros Hf. unfold isdir, node_at. by rewrite Hf. Qed.

Lemma mkdir_exist_ok_cases k ok w r w' :
  mkdir_exist_ok k ok w = (r, w') →
  w' = w
  ∨ (node_at w k = None ∧ r = Ret tt ∧ w' = with_fs (<[k := Dir]> (fs w)) w).
Proof.
  unfold mkdir_exist_ok, mkdir, exists_at.
  destruct (node_at w k) as [n|] eqn:Hn.
  - destruct (ok && isdir w k); intros [= <- <-]; by left.
  - destruct (node_at w (parent k)) as [[|?]|].
    + destruct (bool_decide (k ∈ denied w)).
      * destruct (ok && isdir w k); intros [= <- <-]; by left.
      * intros [= <- <-]. by right.
    + destruct (ok && isdir w k); intros [= <- <-]; by left.
    + destruct (ok && isdir w k); intros [= <- <-]; by left.
Qed.

Lemma write_file_cases p c w r w' :
  write_file p c w = (r, w') →
  (r ≠ Ret tt ∧ w' = emit (EWrite p c) w)
  ∨ (r = Ret tt ∧ p ≠ []
     ∧ isdir w (resolve (cwd w) p) = false
     ∧ isdir w (parent (resolve (cwd w) p)) = true
     ∧ (resolve (cwd w) p ∉ denied w)
     ∧ w' = with_fs (<[resolve (cwd w) p := File c]> (fs w)) (emit (EWrite p c) w)).
Proof.
  unfold write_file. cbn [cwd emit denied].
  change (isdir (emit (EWrite p c) w) (resolve (cwd w) p))
    with (isdir w (resolve (cwd w) p)).
  change (node_at (emit (EWrite p c) w) (parent (resolve (cwd w) p)))
    with (node_at w (parent (resolve (cwd w) p))).
  destruct (bool_decide (p = [])) eqn:Hp; [intros [= <- <-]; by left|].
  apply bool_decide_eq_false in Hp.
  destruct (isdir w (resolve (cwd w) p)) eqn:Hk; [intros [= <- <-]; by left|].
  unfold isdir at 1.
  destruct (node_at w (parent (resolve (cwd w) p))) as [[|?]|];
    try (intros [= <- <-]; by left).
  destruct (bool_decide (resolve (cwd w) p ∈ denied w)) eqn:Hd;
    intros [= <- <-]; [by left|].
  apply bool_decide_eq_false in Hd. right. by repeat split.
Qed.

Lemma makedirs_pre_stock ok w :
  makedirs (py "pre_stock") ok w
  = mkdir_exist_ok (cwd w ++ [py "pre_stock"]) ok
      (emit (EMakedirs (py "pre_stock") ok) w).
Proof. unfold makedirs. by rewrite makedirs_aux_flat by (by left). Qed.

Lemma stdout_emit_silent e w : printed e = None → stdout (emit e w) = stdout w.
Proof.
  intros He. unfold stdout. cbn [trace emit]. rewrite omap_app. cbn.
  rewrite He. apply app_nil_r.
Qed.

(** A path is split at its separators: a name without one is a single
    component. *)
Lemma split_sep_plain (b : str) :
  Forall (λ c, c ≠ sep) b → split_sep b = [b].
Proof.
  induction 1 as [|c b Hc _ IH]; [done|]. simpl.
  destruct (N.eqb_spec c sep); [done|]. by rewrite IH.
Qed.

Lemma split_sep_cons (a b : str) :
  Forall (λ c, c ≠ sep) a → split_sep (a ++ sep :: b) = a :: split_sep b.
Proof.
  induction 1 as [|c a Hc _ IH]; [done|]. simpl.
  destruct (N.eqb_spec c sep); [done|]. by rewrite IH.
Qed.

(** A ticker without a separator names a file directly in [pre_stock]. *)
Lemma resolve_in_pre_stock (c : loc) (T : str) :
  Forall (λ x, x ≠ sep) T →
  resolve c (py "pre_stock/" ++ T ++ py ".csv")
  = c ++ [py "pre_stock"; T ++ py ".csv"].
Proof.
  intros HT. unfold resolve.
  change (py "pre_stock/" ++ T ++ py ".csv")
    with (py "pre_stock" ++ sep :: (T ++ py ".csv")).
  rewrite split_sep_cons by (by vm_compute; repeat constructor).
  rewrite split_sep_plain.
  2:{ apply Forall_app. split; [done|]. by vm_compute; repeat constructor. }
  change (startswith_sep (py "pre_stock" ++ sep :: T ++ py ".csv")) with false.
  cbn [fold_left].
  change (enter c (py "pre_stock")) with (c ++ [py "pre_stock"]).
  unfold enter.
  assert (4 ≤ length (T ++ py ".csv")) as Hl.
  { rewrite length_app. change (length (py ".csv")) with 4. lia. }
  rewrite !bool_decide_eq_false_2; [by rewrite <- app_assoc| | |];
    intros Heq; rewrite Heq in Hl; vm_compute in Hl; lia.
Qed.

(** ** download_stock.py: failures, footprint, repeated runs *)

Section DownloaderMore.
Context `{UnicodeData} `{YFinance}.

(** The run with an argument, as the nest of its four calls. *)
Lemma download_stock_nest argv w :
  2 ≤ length argv →
  let t := ticker_of argv in
  let line := py "Downloaded data for " ++ t ++ py " to " ++ filename_of t in
  let w0 := emit (EDownload t (py "1y")) w in
  download_stock argv w =
    match provider t (py "1y") with
    | inl e => (Raise e, w0)
    | inr data =>
        match mkdir_exist_ok (cwd w ++ [py "pre_stock"]) true
                (emit (EMakedirs (py "pre_stock") true) w0) with
        | (Ret _, w1) =>
            match write_file (filename_of t) (csv_text data) w1 with
            | (Ret _, w2) => (Ret tt, emit (EPrint line) w2)
            | (Raise e, w2) => (Raise e, w2)
            | (Exit c, w2) => (Exit c, w2)
            end
        | (Raise e, w1) => (Raise e, w1)
        | (Exit c, w1) => (Exit c, w1)
        end
    end.
Proof.
  intros Hl t line w0. rewrite download_stock_steps by done. fold t.
  unfold bind, yf_download, to_csv, print. fold w0.
  destruct (provider t (py "1y")) as [e|data]; [done|].
  rewrite makedirs_pre_stock. change (cwd w0) with (cwd w).
  by destruct (mkdir_exist_ok _ _ _) as [[[]|e|c] w1].
Qed.

(** X1.  A run that ends in an exception has status 1, has printed nothing
    and has created or changed no file (at most the directory [pre_stock]);
    when it is the provider that fails, the file system is untouched and
    neither [os.makedirs] nor the write is reached. *)
Theorem download_failure_effects argv w e :
  2 ≤ length argv →
  (download_stock argv w).1 = Raise e →
  exit_code (download_stock argv w).1 = 1%Z
  ∧ stdout (download_stock argv w).2 = stdout w
  ∧ (∀ k c, fs (download_stock argv w).2 !! k = Some (File c) →
            fs w !! k = Some (File c))
  ∧ (provider (ticker_of argv) (py "1y") = inl e →
     download_stock argv w
     = (Raise e, emit (EDownload (ticker_of argv) (py "1y")) w)).
Proof.
  intros Hl. rewrite (download_stock_nest argv w Hl).
  set (t := ticker_of argv). set (w0 := emit (EDownload t (py "1y")) w).
  assert (stdout (emit (EMakedirs (py "pre_stock") true) w0) = stdout w) as Hs0.
  { subst w0. by rewrite !stdout_emit_silent by done. }
  destruct (provider t (py "1y")) as [e0|data] eqn:Hp.
  { cbn [fst snd]. intros [= ->]. split; [done|].
    split; [by apply stdout_emit_silent|]. by split. }
  destruct (mkdir_exist_ok _ _ _) as [[[]|e1|c1] w1] eqn:Em.
  - apply mkdir_exist_ok_cases in Em.
    destruct (write_file _ _ w1) as [[[]|e2|c2] w2] eqn:Ew; try done.
    cbn [fst snd]. intros [= ->].
    apply write_file_cases in Ew as [[_ ->]|(? & _)]; [|done].
    split; [done|]. split.
    + rewrite stdout_emit_silent by done.
      by destruct Em as [->|(_ & _ & ->)].
    + split; [|done]. intros k c. cbn [fs emit].
      destruct Em as [->|(Hn & _ & ->)]; [done|]. cbn [fs with_fs emit].
      destruct (decide (k = cwd w ++ [py "pre_stock"])) as [->|Hk].
      * by rewrite lookup_insert_eq.
      * by rewrite lookup_insert_ne.
  - cbn [fst snd]. intros [= ->].
    apply mkdir_exist_ok_cases in Em as [->|(_ & ? & _)]; [|done].
    split; [done|]. split; [done|]. by split.
  - done.
Qed.

(** X2.  The footprint of the downloader: whatever the arguments and the
    outcome, a run leaves the working directory and the permissions alone,
    removes no entry of the file system, and changes it at most at
    [pre_stock] and at the file the data is written to. *)
Theorem download_footprint argv w :
  cwd (download_stock argv w).2 = cwd w
  ∧ denied (download_stock argv w).2 = denied w
  ∧ (∀ k, is_Some (fs w !! k) → is_Some (fs (download_stock argv w).2 !! k))
  ∧ (∀ k, k ≠ cwd w ++ [py "pre_stock"] →
          k ≠ resolve (cwd w) (filename_of (ticker_of argv)) →
          fs (download_stock argv w).2 !! k = fs w !! k).
Proof.
  destruct (Nat.lt_ge_cases (length argv) 2) as [Hl|Hl].
  { rewrite download_stock_usage by done. by repeat split. }
  rewrite (download_stock_nest argv w Hl).
  set (t := ticker_of argv). set (w0 := emit (EDownload t (py "1y")) w).
  set (D := cwd w ++ [py "pre_stock"]).
  destruct (provider t (py "1y")) as [e0|data]; [by repeat split|].
  destruct (mkdir_exist_ok _ _ _) as [r1 w1] eqn:Em.
  assert (cwd w1 = cwd w ∧ denied w1 = denied w
          ∧ (∀ k, is_Some (fs w !! k) → is_Some (fs w1 !! k))
          ∧ (∀ k, k ≠ D → fs w1 !! k = fs w !! k)) as (Hc1 & Hd1 & Hk1 & Hf1).
  { apply mkdir_exist_ok_cases in Em as [->|(_ & _ & ->)]; [by repeat split|].
    cbn [cwd denied fs with_fs emit]. repeat split; try done.
    - intros k Hk. destruct (decide (k = D)) as [->|Hne].
      + rewrite lookup_insert_eq. by eexists.
      + by rewrite lookup_insert_ne.
    - intros k Hk. by rewrite lookup_insert_ne. }
  destruct r1 as [[]|e1|c1];
    [|by (repeat split; try done; intros k Hk _; apply Hf1)..].
  destruct (write_file _ _ w1) as [r2 w2] eqn:Ew.
  assert (cwd w2 = cwd w ∧ denied w2 = denied w
          ∧ (∀ k, is_Some (fs w !! k) → is_Some (fs w2 !! k))
          ∧ (∀ k, k ≠ D → k ≠ resolve (cwd w) (filename_of t) →
                  fs w2 !! k = fs w !! k)) as (Hc2 & Hd2 & Hk2 & Hf2).
  { apply write_file_cases in Ew
      as [[_ ->]|(_ & _ & _ & _ & _ & ->)]; cbn [cwd denied fs with_fs emit].
    - repeat split; try done. intros k Hk _. by apply Hf1.
    - rewrite Hc1. repeat split; try done.
      + intros k Hk.
        destruct (decide (k = resolve (cwd w) (filename_of t))) as [->|Hne].
        * rewrite lookup_insert_eq. by eexists.
        * rewrite lookup_insert_ne by done. by apply Hk1.
      + intros k Hk HkF. rewrite lookup_insert_ne by done. by apply Hf1. }
  by destruct r2 as [[]|e2|c2].
Qed.

(** X3.  A ticker without a path separator: the data goes to the file
    [<TICKER>.csv] directly in [pre_stock] under the working directory.
    Once the download has succeeded and [pre_stock] is a directory or can be
    created, the run fails with [IsADirectoryError] when that file is a
    directory and with [PermissionError] when writing it is refused, and
    otherwise runs to its end, leaving the CSV text in the file and the
    closing line on the output. *)
Theorem download_plain_ticker argv t w data :
  argv !! 1 = Some t →
  Forall (λ c, c ≠ sep) (upper t) →
  provider (upper t) (py "1y") = inr data →
  let D := cwd w ++ [py "pre_stock"] in
  let F := cwd w ++ [py "pre_stock"; upper t ++ py ".csv"] in
  isdir w D = true
  ∨ (node_at w D = None ∧ isdir w (cwd w) = true ∧ D ∉ denied w) →
  (isdir w F = true → (download_stock argv w).1 = Raise IsADirectoryError) ∧
  (isdir w F = false → F ∈ denied w →
     (download_stock argv w).1 = Raise PermissionError) ∧
  (isdir w F = false → F ∉ denied w →
     (download_stock argv w).1 = Ret tt
     ∧ fs (download_stock argv w).2 !! F = Some (File (csv_text data))
     ∧ isdir (download_stock argv w).2 D = true
     ∧ stdout (download_stock argv w).2
       = stdout w ++ [py "Downloaded data for " ++ upper t ++ py " to "
                        ++ py "pre_stock/" ++ upper t ++ py ".csv"]).
Proof.
  intros Ha HT Hp D F HD.
  assert (2 ≤ length argv) as Hl by (apply lookup_lt_Some in Ha; lia).
  rewrite (download_stock_nest argv w Hl).
  rewrite (ticker_of_lookup argv t Ha), Hp.
  assert (startswith_sep (upper t) = false) as Hs.
  { destruct HT as [|c T Hc _]; [done|]. simpl. by destruct (N.eqb_spec c sep). }
  rewrite (filename_of_relative (upper t) Hs).
  set (w0 := emit (EMakedirs (py "pre_stock") true)
               (emit (EDownload (upper t) (py "1y")) w)).
  fold D.
  assert (D ≠ F) as HDF.
  { intros Heq. apply (f_equal length) in Heq. subst D F.
    rewrite !length_app in Heq. simpl in Heq. lia. }
  assert (D ≠ []) as HD0 by (subst D; by destruct (cwd w)).
  assert (parent F = D) as HpF.
  { subst F D. change [py "pre_stock"; upper t ++ py ".csv"]
      with ([py "pre_stock"] ++ [upper t ++ py ".csv"]).
    by rewrite app_assoc, parent_snoc. }
  assert (∃ w1, mkdir_exist_ok D true w0 = (Ret tt, w1)
                ∧ cwd w1 = cwd w ∧ denied w1 = denied w
                ∧ isdir w1 D = true ∧ isdir w1 F = isdir w F
                ∧ stdout w1 = stdout w)
    as (w1 & -> & Hc1 & Hd1 & HD1 & HF1 & Hs1).
  { destruct HD as [HD|(Hn & Hc & Hden)].
    - exists w0. split; [by apply mkdir_exist_ok_dir|].
      repeat split; try done. subst w0. by rewrite !stdout_emit_silent by done.
    - exists (with_fs (<[D := Dir]> (fs w0)) w0). split.
      + apply mkdir_exist_ok_absent; try done. subst D. by rewrite parent_snoc.
      + repeat split; try done.
        * unfold isdir. by rewrite node_at_insert.
        * by rewrite isdir_insert_ne.
        * change (stdout w0 = stdout w). subst w0.
          by rewrite !stdout_emit_silent by done. }
  assert (resolve (cwd w1) (py "pre_stock/" ++ upper t ++ py ".csv") = F) as Hres.
  { rewrite Hc1. by apply resolve_in_pre_stock. }
  split; [|split].
  - intros HF. unfold write_file. cbn [cwd emit]. rewrite Hres.
    rewrite bool_decide_eq_false_2 by (by destruct (upper t)).
    change (isdir (emit _ w1) F) with (isdir w1 F). by rewrite HF1, HF.
  - intros HF Hden. rewrite write_file_run; rewrite ?Hres, ?HpF, ?HF1; try done.
    by rewrite Hd1, bool_decide_eq_true_2.
  - intros HF Hden. rewrite write_file_run; rewrite ?Hres, ?HpF, ?HF1; try done.
    rewrite Hd1, bool_decide_eq_false_2 by done.
    cbn [fst snd fs emit with_fs]. split; [done|].
    split; [apply lookup_insert_eq|]. split.
    + change (isdir (with_fs (<[F := File (csv_text data)]> (fs w1)) w1) D = true).
      rewrite isdir_insert_ne; [done|]. by intros Heq; apply HDF.
    + rewrite stdout_emit_print.
      change (stdout (emit (EWrite (py "pre_stock/" ++ upper t ++ py ".csv")
                              (csv_text data)) w1)
              ++ [py "Downloaded data for " ++ upper t ++ py " to "
                    ++ py "pre_stock/" ++ upper t ++ py ".csv"]
              = stdout w
                ++ [py "Downloaded data for " ++ upper t ++ py " to "
                      ++ py "pre_stock/" ++ upper t ++ py ".csv"]).
      rewrite stdout_emit_silent by done. by rewrite Hs1.
Qed.

(** X4.  Running the downloader again after a run that reached its end
    (same arguments, same provider answer, the file system as the first run
    left it) reaches its end again and leaves the file system as it was: the
    directory is accepted, the file is overwritten with the same text. *)
Theorem download_rerun argv w w2 :
  (download_stock argv w).1 = Ret tt →
  fs w2 = fs (download_stock argv w).2 →
  cwd w2 = cwd w →
  denied w2 = denied w →
  (download_stock argv w2).1 = Ret tt
  ∧ fs (download_stock argv w2).2 = fs w2.
Proof.
  intros Hret.
  assert (2 ≤ length argv) as Hl.
  { destruct (Nat.lt_ge_cases (length argv) 2) as [Hlt|]; [|done].
    by rewrite download_stock_usage in Hret. }
  rewrite (download_stock_nest argv w Hl) in Hret |- *.
  rewrite (download_stock_nest argv w2 Hl).
  set (t := ticker_of argv) in *. set (F := filename_of t) in *.
  destruct (provider t (py "1y")) as [e|data]; [done|].
  destruct (mkdir_exist_ok (cwd w ++ [py "pre_stock"]) true _)
    as [[[]|e1|c1] w1] eqn:Em; try done.
  pose proof (mkdir_exist_ok_ret _ _ _ Em) as HD1.
  apply mkdir_exist_ok_frame in Em as (Hc1 & Hd1 & _).
  cbn [cwd denied emit] in Hc1, Hd1.
  destruct (write_file F (csv_text data) w1) as [[[]|e2|c2] wf] eqn:Ew; try done.
  apply write_file_cases in Ew as [[? _]|(_ & HF0 & Hk & Hpk & Hden & ->)]; [done|].
  rewrite Hc1 in Hk, Hpk, Hden. rewrite Hd1 in Hden.
  set (k := resolve (cwd w) F) in *.
  cbn [fst snd fs emit with_fs]. intros Hfs Hcw Hdw.
  rewrite Hc1 in Hfs. fold k in Hfs.
  set (D := cwd w ++ [py "pre_stock"]) in *.
  assert (k ≠ D) as HkD by (intros ->; congruence).
  assert (k ≠ parent k) as Hkp by (intros Heq; rewrite <- Heq in Hpk; congruence).
  assert (k ≠ []) as Hk0 by (intros Heq; by rewrite Heq in Hk).
  set (w0 := emit (EMakedirs (py "pre_stock") true)
               (emit (EDownload t (py "1y")) w2)).
  assert (fs w0 = fs (with_fs (<[k := File (csv_text data)]> (fs w1)) w1)) as Hfs0
    by exact Hfs.
  rewrite Hcw. fold D.
  rewrite mkdir_exist_ok_dir.
  2:{ rewrite (isdir_same_fs _ _ D Hfs0). by rewrite isdir_insert_ne. }
  rewrite write_file_run.
  - change (cwd w0) with (cwd w2). change (denied w0) with (denied w2).
    change (fs w0) with (fs w2). rewrite Hcw, Hdw. fold k.
    rewrite bool_decide_eq_false_2 by done.
    cbn [fst snd fs emit with_fs]. split; [done|].
    rewrite Hfs. apply insert_insert_eq.
  - done.
  - change (cwd w0) with (cwd w2). rewrite Hcw. fold k.
    rewrite (isdir_same_fs _ _ k Hfs0). unfold isdir.
    by rewrite node_at_insert.
  - change (cwd w0) with (cwd w2). rewrite Hcw. fold k.
    rewrite (isdir_same_fs _ _ (parent k) Hfs0).
    by rewrite isdir_insert_ne.
Qed.

Lemma ascii_upper_idem (c : N) : ascii_upper (ascii_upper c) = ascii_upper c.
Proof.
  unfold ascii_upper.
  destruct ((97 <=? c)%N && (c <=? 122)%N) eqn:Hc; [|by rewrite Hc].
  apply andb_true_iff in Hc as [H1 H2].
  apply N.leb_le in H1, H2.
  assert ((97 <=? c - 32)%N = false) as ->; [|done].
  apply N.leb_gt. lia.
Qed.

Lemma ascii_upper_small (c : N) : (c < 128)%N → (ascii_upper c < 128)%N.
Proof.
  unfold ascii_upper. intros Hc.
  destruct ((97 <=? c)%N && (c <=? 122)%N); lia.
Qed.

Lemma upper_cp_ascii (c : N) : (c < 128)%N → upper_cp c = [ascii_upper c].
Proof. intros Hc. unfold upper_cp. apply N.ltb_lt in Hc. by rewrite Hc. Qed.

(** X5.  Upper-casing is idempotent on ASCII tickers, so the case in which
    an ASCII ticker is typed makes no difference: the run with the ticker
    already in upper case is the run with the ticker as typed. *)
Theorem download_ascii_case argv argv' t w :
  argv !! 1 = Some t →
  argv' !! 1 = Some (upper t) →
  Forall (λ c, (c < 128)%N) t →
  upper (upper t) = upper t
  ∧ download_stock argv' w = download_stock argv w.
Proof.
  intros Ha Ha' Hascii.
  assert (upper (upper t) = upper t) as Hidem.
  { clear Ha Ha'. induction Hascii as [|c t Hc _ IH]; [done|].
    change (upper (c :: t)) with (upper_cp c ++ upper t).
    rewrite (upper_cp_ascii c Hc).
    change (upper ([ascii_upper c] ++ upper t))
      with (upper_cp (ascii_upper c) ++ upper (upper t)).
    rewrite (upper_cp_ascii _ (ascii_upper_small c Hc)).
    by rewrite ascii_upper_idem, IH. }
  split; [done|].
  unfold download_stock.
  pose proof (lookup_1_length argv) as L1. rewrite Ha in L1.
  pose proof (lookup_1_length argv') as L2. rewrite Ha' in L2.
  rewrite L1, L2.
  by rewrite (ticker_of_lookup argv t Ha), (ticker_of_lookup argv' _ Ha'), Hidem.
Qed.

(** X6.  With an argument, the closing line is the only thing the downloader
    prints, it is printed exactly in the runs that reach their end, and the
    path it names is the path the data was written to. *)
Theorem download_message_iff_success argv w :
  2 ≤ length argv →
  let t := ticker_of argv in
  let line := py "Downloaded data for " ++ t ++ py " to " ++ filename_of t in
  ((download_stock argv w).1 = Ret tt
   ↔ stdout (download_stock argv w).2 = stdout w ++ [line])
  ∧ ((download_stock argv w).1 ≠ Ret tt →
     stdout (download_stock argv w).2 = stdout w)
  ∧ ((download_stock argv w).1 = Ret tt →
     ∃ data, provider t (py "1y") = inr data
             ∧ trace (download_stock argv w).2
               = trace w ++ [EDownload t (py "1y");
                             EMakedirs (py "pre_stock") true;
                             EWrite (filename_of t) (csv_text data);
                             EPrint line]).
Proof.
  intros Hl t line.
  assert (∀ l : str, stdout w ≠ stdout w ++ [l]) as Hneq.
  { intros l Heq. apply (f_equal length) in Heq.
    rewrite length_app in Heq. simpl in Heq. lia. }
  rewrite (download_stock_nest argv w Hl). fold t line.
  set (w0 := emit (EDownload t (py "1y")) w).
  assert (stdout w0 = stdout w) as Hs0 by (by apply stdout_emit_silent).
  destruct (provider t (py "1y")) as [e|data].
  { cbn [fst snd]. rewrite Hs0. split; [split; [done|]|by split].
    intros Heq. by apply Hneq in Heq. }
  destruct (mkdir_exist_ok _ _ _) as [r1 w1] eqn:Em.
  assert (stdout w1 = stdout w
          ∧ trace w1 = trace w ++ [EDownload t (py "1y");
                                   EMakedirs (py "pre_stock") true])
    as [Hs1 Ht1].
  { apply mkdir_exist_ok_frame in Em as (_ & _ & Ht).
    split.
    - unfold stdout. rewrite Ht. fold (stdout (emit (EMakedirs (py "pre_stock") true) w0)).
      by rewrite stdout_emit_silent.
    - rewrite Ht. cbn [trace emit w0]. by rewrite <- app_assoc. }
  destruct r1 as [[]|e1|c1].
  2,3: cbn [fst snd]; rewrite Hs1; (split; [split; [done|]|by split]);
       intros Heq; by apply Hneq in Heq.
  destruct (write_file _ _ w1) as [r2 w2] eqn:Ew.
  apply write_file_frame in Ew as (_ & _ & Ht2).
  assert (stdout w2 = stdout w) as Hs2.
  { unfold stdout. rewrite Ht2, omap_app. cbn. rewrite app_nil_r. exact Hs1. }
  destruct r2 as [[]|e2|c2].
  2,3: cbn [fst snd]; rewrite Hs2; (split; [split; [done|]|by split]);
       intros Heq; by apply Hneq in Heq.
  cbn [fst snd]. rewrite stdout_emit_print, Hs2.
  split; [done|]. split; [done|]. intros _. exists data. split; [done|].
  cbn [trace emit]. rewrite Ht2, Ht1. by rewrite <- !app_assoc.
Qed.



End DownloaderMore.

(** ** ml/model.py: the data generator in general *)

Section TrainerMore.
Context `{Torch}.

Lemma samples_succ seq_length n g :
  ∃ d, noisy_sine seq_length g = (Ret d, (noisy_sine seq_length g).2)
       ∧ length d = seq_length + 1
       ∧ samples seq_length (S n) g
         = d :: samples seq_length n (noisy_sine seq_length g).2.
Proof.
  destruct (noisy_sine_ok seq_length g) as (d & g' & Hd & Hl & _).
  exists d. simpl. by rewrite Hd.
Qed.

Lemma samples_app seq_length n m : ∀ g,
  samples seq_length (n + m) g
  = samples seq_length n g ++ samples seq_length m (rng_after seq_length n g).
Proof.
  induction n as [|n IH]; intros g; [done|].
  change (S n + m) with (S (n + m)).
  destruct (samples_succ seq_length (n + m) g) as (d & Hd & _ & ->).
  destruct (samples_succ seq_length n g) as (d' & Hd' & _ & ->).
  assert (d = d') as <- by congruence.
  cbn [app rng_after]. by rewrite IH.
Qed.

Lemma rng_after_app seq_length n m : ∀ g,
  rng_after seq_length (n + m) g
  = rng_after seq_length m (rng_after seq_length n g).
Proof. induction n as [|n IH]; intros g; [done|]. simpl. apply IH. Qed.

(** The data loop, with the generator it leaves. *)
Lemma sample_loop_rng seq_length n : ∀ a acc g,
  for_each (seq a n) (sample_body seq_length) acc g
  = (Ret (acc.1 ++ map (λ d, removelast d) (samples seq_length n g),
          acc.2 ++ omap last (samples seq_length n g)),
     rng_after seq_length n g).
Proof.
  induction n as [|n IH]; intros a [accX accy] g.
  - simpl. unfold ret. by rewrite !app_nil_r.
  - cbn [seq for_each rng_after]. unfold bind at 1. unfold sample_body at 1.
    unfold bind at 1.
    destruct (samples_succ seq_length n g) as (d & Hd & Hl & ->).
    rewrite Hd.
    destruct (last d) as [l|] eqn:Hlast.
    + unfold ret at 1. rewrite IH. cbn [fst snd map omap list_omap].
      rewrite Hlast. cbn. by rewrite <- !app_assoc.
    + apply last_None in Hlast. subst d. simpl in Hl. lia.
Qed.

Lemma create_synthetic_data_rng seq_length num_samples g :
  (create_synthetic_data seq_length num_samples g).2
  = rng_after seq_length num_samples g.
Proof.
  unfold create_synthetic_data. unfold bind at 1. rewrite sample_loop_rng.
  unfold bind, lift_exn, ret, raise.
  by destruct (reshape_rows_n_1 seq_length _).
Qed.

(** X7.  For every positive sequence length and every number of samples,
    [create_synthetic_data] returns: [X] of shape
    (num_samples, seq_length, 1) and [y] of shape (num_samples, 1), example
    [i] and label [i] being [data[:-1]] and [data[-1]] of the [i]-th noisy
    sine drawn, and the generator is left where the last draw left it. *)
Theorem create_synthetic_data_shapes seq_length num_samples g :
  0 < seq_length →
  let S := samples seq_length num_samples g in
  create_synthetic_data seq_length num_samples g
  = (Ret (map example_of S, map label_of S),
     rng_after seq_length num_samples g)
  ∧ length (map example_of S) = num_samples
  ∧ length (map label_of S) = num_samples
  ∧ Forall (λ ex, length ex = seq_length ∧ Forall (λ v, length v = 1) ex)
           (map example_of S)
  ∧ Forall (λ l, length l = 1) (map label_of S)
  ∧ Forall (is_noisy_sine seq_length) S.
Proof.
  intros Hpos S.
  destruct (create_synthetic_data_run seq_length num_samples g Hpos) as (g' & Hrun).
  pose proof (create_synthetic_data_rng seq_length num_samples g) as Hg.
  rewrite Hrun in Hg. cbn [snd] in Hg. subst g'. fold S in Hrun.
  destruct (samples_spec seq_length num_samples g) as [Hlen Hall].
  fold S in Hlen, Hall.
  split; [exact Hrun|]. rewrite !length_map.
  split; [done|]. split; [done|]. split; [|split].
  - apply Forall_map. eapply Forall_impl; [exact Hall|].
    intros d [Hl _]. simpl. unfold example_of.
    rewrite length_map, removelast_length, Hl. split; [lia|].
    apply Forall_map. by apply Forall_true.
  - apply Forall_map. eapply Forall_impl; [exact Hall|].
    intros d [Hl _]. simpl. unfold label_of.
    destruct (last d) as [l|] eqn:E; [done|].
    apply last_None in E. subst d. simpl in Hl. lia.
  - eapply Forall_impl; [exact Hall|]. by intros d [_ Hs].
Qed.

(** X8.  With sequence length 0 the call fails, whatever the number of
    samples: the loop runs and draws from the generator, and then
    [reshape(-1, 0, 1)] cannot infer the free dimension and raises
    [ValueError]. *)
Theorem create_synthetic_data_zero_length num_samples g :
  create_synthetic_data 0 num_samples g
  = (Raise ValueError, rng_after 0 num_samples g).
Proof.
  unfold create_synthetic_data. unfold bind at 1. rewrite sample_loop_rng.
  reflexivity.
Qed.

(** X9.  Calls compose along the generator: no sample at all leaves the
    generator untouched, and a call for [n] samples followed by a call for
    [m] samples from the generator the first one left yields what one call
    for [n + m] samples yields. *)
Theorem create_synthetic_data_append seq_length n m g X1 y1 g1 X2 y2 g2 :
  0 < seq_length →
  create_synthetic_data seq_length n g = (Ret (X1, y1), g1) →
  create_synthetic_data seq_length m g1 = (Ret (X2, y2), g2) →
  create_synthetic_data seq_length 0 g = (Ret ([], []), g)
  ∧ create_synthetic_data seq_length (n + m) g = (Ret (X1 ++ X2, y1 ++ y2), g2).
Proof.
  intros Hpos H1 H2.
  destruct (create_synthetic_data_run seq_length n g Hpos) as (g1' & E1).
  destruct (create_synthetic_data_run seq_length m g1 Hpos) as (g2' & E2).
  destruct (create_synthetic_data_run seq_length (n + m) g Hpos) as (g3 & E3).
  destruct (create_synthetic_data_run seq_length 0 g Hpos) as (g0 & E0).
  pose proof (create_synthetic_data_rng seq_length n g) as R1.
  pose proof (create_synthetic_data_rng seq_length m g1) as R2.
  pose proof (create_synthetic_data_rng seq_length (n + m) g) as R3.
  pose proof (create_synthetic_data_rng seq_length 0 g) as R0.
  rewrite E0 in R0. rewrite E3 in R3. rewrite H1 in R1, E1. rewrite H2 in R2, E2.
  cbn [snd rng_after] in R0, R1, R2, R3. subst g0 g3.
  injection E1 as -> -> _. injection E2 as -> -> _.
  split; [exact E0|]. rewrite E3.
  rewrite rng_after_app, <- R1, <- R2, samples_app, <- R1.
  by rewrite !map_app.
Qed.

(** X10.  [LSTMModel.forward] on a batch without an empty sequence: the
    result is the linear head applied to one row per sequence of the batch,
    the output of the LSTM at the last time step of that sequence. *)
Theorem forward_last_time_step (model : LSTMModel) (X : list (list (list F32))) :
  Forall (λ r, r ≠ []) X →
  ∃ rows,
    forward model X = inr (linear_forward (fc model) rows)
    ∧ length rows = length X
    ∧ Forall2 (λ row out, last out = Some row) rows (lstm_forward (lstm model) X).
Proof.
  intros Hne. exists (omap last (lstm_forward (lstm model) X)).
  split; [by apply forward_ok|].
  pose proof (lstm_forward_steps (lstm model) X) as Hs.
  assert (Forall (λ r, r ≠ []) (lstm_forward (lstm model) X)) as Hout.
  { revert Hs. generalize (lstm_forward (lstm model) X). intros out.
    revert out. induction Hne as [|r X' Hr _ IH]; intros [|o out] Hs; try done.
    injection Hs as Hl Hs. constructor; [|by apply IH].
    intros ->. by destruct r. }
  assert (length (lstm_forward (lstm model) X) = length X) as Hlen.
  { apply (f_equal length) in Hs. by rewrite !length_map in Hs. }
  rewrite <- Hlen. clear Hs Hlen.
  induction Hout as [|o out Ho _ [IHl IHf]]; [split; [done|constructor]|].
  destruct (last o) as [v|] eqn:Hl; [|by apply last_None in Hl].
  cbn [omap list_omap]. rewrite Hl. cbn. split.
  - by rewrite IHl.
  - by constructor.
Qed.

(** ** ml/model.py: the training loop for any number of epochs *)

Lemma loop_lines_any (N : nat) (f : nat → F32) (n : nat) :
  omap printed (flat_map (λ e, epoch_events N e (f e)) (seq 0 n))
  = map (λ k, epoch_line (10 * k + 9) N (f (10 * k + 9))) (seq 0 (n / 10)).
Proof.
  induction n as [|n IH]; [done|].
  rewrite seq_S, flat_map_app, omap_app, IH. cbn [flat_map Nat.add].
  unfold epoch_events. rewrite app_nil_r.
  pose proof (Nat.div_mod_eq n 10) as E1.
  pose proof (Nat.div_mod_eq (S n) 10) as E2.
  pose proof (Nat.mod_upper_bound n 10) as B1.
  pose proof (Nat.mod_upper_bound (S n) 10) as B2.
  replace (n + 1) with (S n) by lia.
  generalize dependent (n / 10). generalize dependent (S n / 10).
  generalize dependent (n mod 10). generalize dependent (S n mod 10).
  intros r' B2 r B1 q' E2 q IH E1.
  destruct (Nat.eqb_spec r' 0) as [Hm|Hm].
  - assert (q' = S q) as -> by lia.
    assert (10 * q + 9 = n) as Hn by lia.
    rewrite seq_S, map_app. cbn [map Nat.add omap list_omap printed].
    by rewrite Hn.
  - assert (q' = q) as -> by lia.
    cbn [omap list_omap printed]. apply app_nil_r.
Qed.

(** X11.  The training loop run for [n] epochs from any model and optimizer
    state, on a batch without an empty sequence: it never fails, makes [n]
    optimizer steps and no write, and prints [n / 10] lines, those of the
    epochs 10, 20, ..., each with the loss computed in that epoch. *)
Theorem training_loop_any_length X y N n (st : LSTMModel * Adam) (s : Py) :
  Forall (λ r, r ≠ []) X →
  ∃ evs,
    for_each (seq 0 n) (epoch_body X y N) st s
    = (Ret (state_at X y st n),
       mkPy (emits evs (world s)) (np_rng s) (torch_rng s))
    ∧ length (List.filter is_optim_step evs) = n
    ∧ List.filter is_write evs = []
    ∧ omap printed evs
      = map (λ k, epoch_line (10 * k + 9) N (loss_at X y st (10 * k + 9)))
            (seq 0 (n / 10)).
Proof.
  intros Hne. eexists. split; [by apply training_loop_run|].
  cbn [Nat.add]. split; [|split].
  - rewrite (optim_steps_count N (loss_at X y st)). apply length_seq.
  - apply (no_write_in_epochs N (loss_at X y st)).
  - apply (loop_lines_any N (loss_at X y st)).
Qed.

(** X12.  Gradients never accumulate across epochs and the model stays in
    training mode: after any epoch the stored gradient is the gradient of the
    loss at the parameters that epoch started from, whatever was stored
    before the loop. *)
Theorem gradient_is_fresh_each_epoch X y N n (st : LSTMModel * Adam) (s : Py) :
  Forall (λ r, r ≠ []) X →
  ∃ prev st',
    (for_each (seq 0 n) (epoch_body X y N) st s).1 = Ret prev
    ∧ (for_each (seq 0 (S n)) (epoch_body X y N) st s).1 = Ret st'
    ∧ grad st'.1 = Some (autograd (lstm prev.1) (fc prev.1) X y)
    ∧ training st'.1 = true.
Proof.
  intros Hne. exists (state_at X y st n), (state_at X y st (S n)).
  rewrite !training_loop_run by done. split; [done|]. split; [done|].
  change (state_at X y st (S n)) with (epoch_next X y (state_at X y st n)).
  generalize (state_at X y st n). intros [m o].
  unfold epoch_next, backward. cbn [fst snd lstm fc grad training].
  by destruct (adam_step o (lstm m) (fc m) _) as [[l f] o'].
Qed.

(** ** ml/model.py: the run as a whole *)

Lemma run_events_lines :
  omap printed run_events
  = map (λ k, epoch_line (10 * k + 9) 100
                (loss_at run_X run_y (initial_state (torch_manual_seed 0))
                         (10 * k + 9)))
        (seq 0 10).
Proof.
  unfold run_events, training_events, setup_events. rewrite omap_app.
  exact (loop_lines (λ e, epoch_line e 100 (loss_at _ _ _ e))).
Qed.



Lemma epoch_line_not_saved_line e N (v : F32) : epoch_line e N v ≠ saved_line.
Proof.
  unfold epoch_line, saved_line. intros Heq.
  apply (f_equal head) in Heq. vm_compute in Heq. discriminate.
Qed.

(** X15.  What a run prints: always the ten loss lines, and after them the
    line [Model saved to ../model/lstm_model.pth] exactly when the weights
    have been written; no loss line can be taken for that line. *)
Theorem model_py_stdout (s : Py) :
  let r := model_py s in
  let lines :=
    map (λ k, epoch_line (10 * k + 9) 100
                (loss_at run_X run_y (initial_state (torch_manual_seed 0))
                         (10 * k + 9)))
        (seq 0 10) in
  stdout (world r.2)
  = stdout (world s) ++ lines
    ++ match r.1 with
       | Ret _ => [saved_line]
       | _ => []
       end
  ∧ Forall (λ l, l ≠ saved_line) lines.
Proof.
  intros r lines. subst r. split.
  2:{ apply Forall_map, Forall_true. intros k. apply epoch_line_not_saved_line. }
  pose proof run_events_lines as Hlines. fold lines in Hlines.
  destruct (model_py_run s) as (g' & t' & ->).
  revert Hlines. generalize run_events trained_model. intros E m Hlines.
  set (s' := mkPy (emits E (world s)) g' t').
  destruct (saving_phase_trace m s') as (n & Hn & Htr & Hok & _).
  unfold stdout at 1. rewrite Htr.
  change (trace (world s')) with (trace (world s) ++ E).
  rewrite !omap_app, Hlines, <- app_assoc.
  fold (stdout (world s)). do 2 f_equal.
  destruct (saving_phase m s').1 as [[]|e|c] eqn:Hr.
  - assert (n = 3) as -> by (by apply Hok). done.
  - assert (n ≠ 3) as Hn3 by (intros Hn3; apply Hok in Hn3; discriminate).
    destruct n as [|[|[|n]]]; try lia; done.
  - assert (n ≠ 3) as Hn3 by (intros Hn3; apply Hok in Hn3; discriminate).
    destruct n as [|[|[|n]]]; try lia; done.
Qed.

End TrainerMore.

(** *** The further properties on concrete inputs *)

Lemma download_failure_effects_witness :
  2 ≤ length [py "download_stock.py"; py "aapl"]
  ∧ (@download_stock toy_unicode down_yfinance
       [py "download_stock.py"; py "aapl"] home_world).1
    = Raise (LibraryError (py "ConnectionError"))
  ∧ stdout (@download_stock toy_unicode down_yfinance
              [py "download_stock.py"; py "aapl"] home_world).2
    = stdout home_world.
Proof.
  assert (2 ≤ length [py "download_stock.py"; py "aapl"]) as Hl by (simpl; lia).
  assert ((@download_stock toy_unicode down_yfinance
             [py "download_stock.py"; py "aapl"] home_world).1
          = Raise (LibraryError (py "ConnectionError"))) as Hr
    by (vm_compute; reflexivity).
  split; [exact Hl|]. split; [exact Hr|].
  destruct (@download_failure_effects toy_unicode down_yfinance
              [py "download_stock.py"; py "aapl"] home_world _ Hl Hr)
    as (_ & Hs & _).
  exact Hs.
Defined.

Lemma download_plain_ticker_witness :
  [py "download_stock.py"; py "aapl"] !! 1 = Some (py "aapl")
  ∧ Forall (λ c, c ≠ sep) (@upper toy_unicode (py "aapl"))
  ∧ (@download_stock toy_unicode toy_yfinance
       [py "download_stock.py"; py "aapl"] home_world).1 = Ret tt
  ∧ fs (@download_stock toy_unicode toy_yfinance
          [py "download_stock.py"; py "aapl"] home_world).2
      !! (cwd home_world ++ [py "pre_stock"; py "AAPL.csv"])
    = Some (File (py "AAPL")).
Proof.
  assert (Forall (λ c, c ≠ sep) (@upper toy_unicode (py "aapl"))) as HT
    by (vm_compute; repeat constructor; discriminate).
  split; [reflexivity|]. split; [exact HT|].
  destruct (@download_plain_ticker toy_unicode toy_yfinance
              [py "download_stock.py"; py "aapl"] (py "aapl") home_world
              (py "AAPL") eq_refl HT eq_refl) as (_ & _ & Hok).
  - right. split; [reflexivity|]. split; [reflexivity|]. apply not_elem_of_empty.
  - destruct (Hok eq_refl) as (Hr & Hf & _); [apply not_elem_of_empty|].
    split; [exact Hr|exact Hf].
Defined.

Lemma download_rerun_witness :
  (@download_stock toy_unicode toy_yfinance
     [py "download_stock.py"; py "aapl"] home_world).1 = Ret tt
  ∧ (@download_stock toy_unicode toy_yfinance
       [py "download_stock.py"; py "aapl"]
       (@download_stock toy_unicode toy_yfinance
          [py "download_stock.py"; py "aapl"] home_world).2).1 = Ret tt.
Proof.
  assert ((@download_stock toy_unicode toy_yfinance
             [py "download_stock.py"; py "aapl"] home_world).1 = Ret tt) as Hr
    by (vm_compute; reflexivity).
  split; [exact Hr|].
  apply (@download_rerun toy_unicode toy_yfinance
           [py "download_stock.py"; py "aapl"] home_world _ Hr eq_refl);
    vm_compute; reflexivity.
Defined.

Lemma download_ascii_case_witness :
  [py "download_stock.py"; py "aapl"] !! 1 = Some (py "aapl")
  ∧ [py "download_stock.py"; py "AAPL"] !! 1 = Some (@upper toy_unicode (py "aapl"))
  ∧ Forall (λ c, (c < 128)%N) (py "aapl")
  ∧ @download_stock toy_unicode toy_yfinance
      [py "download_stock.py"; py "AAPL"] home_world
    = @download_stock toy_unicode toy_yfinance
        [py "download_stock.py"; py "aapl"] home_world.
Proof.
  assert (Forall (λ c, (c < 128)%N) (py "aapl")) as Hascii
    by (vm_compute; repeat constructor).
  split; [reflexivity|]. split; [reflexivity|]. split; [exact Hascii|].
  apply (@download_ascii_case toy_unicode toy_yfinance
           [py "download_stock.py"; py "aapl"]
           [py "download_stock.py"; py "AAPL"] (py "aapl") home_world
           eq_refl eq_refl Hascii).
Defined.

Lemma download_message_iff_success_witness :
  2 ≤ length [py "download_stock.py"; py "aapl"]
  ∧ stdout (@download_stock toy_unicode toy_yfinance
              [py "download_stock.py"; py "aapl"] home_world).2
    = stdout home_world
      ++ [py "Downloaded data for " ++ py "AAPL" ++ py " to "
            ++ py "pre_stock/AAPL.csv"].
Proof.
  assert (2 ≤ length [py "download_stock.py"; py "aapl"]) as Hl by (simpl; lia).
  split; [exact Hl|].
  destruct (@download_message_iff_success toy_unicode toy_yfinance
              [py "download_stock.py"; py "aapl"] home_world Hl) as [Hiff _].
  apply Hiff. vm_compute. reflexivity.
Defined.


Lemma create_synthetic_data_shapes_witness :
  0 < 3
  ∧ length (map (@example_of toy_numpy toy_torch) (@samples toy_numpy 3 2 0%Z)) = 2
  ∧ Forall (λ ex, length ex = 3 ∧ Forall (λ v, length v = 1) ex)
           (map (@example_of toy_numpy toy_torch) (@samples toy_numpy 3 2 0%Z)).
Proof.
  split; [lia|].
  destruct (@create_synthetic_data_shapes toy_numpy toy_torch 3 2 0%Z)
    as (_ & Hl & _ & Hs & _); [lia|].
  split; [exact Hl|exact Hs].
Defined.

Lemma create_synthetic_data_append_witness :
  0 < 3
  ∧ @create_synthetic_data toy_numpy toy_torch 3 1 0%Z
    = (Ret ([[[1]; [3]; [5]]], [[7]]), 5)%Z
  ∧ @create_synthetic_data toy_numpy toy_torch 3 2 5%Z
    = (Ret ([[[36]; [38]; [40]]; [[71]; [73]; [75]]], [[42]; [77]]), 15)%Z
  ∧ @create_synthetic_data toy_numpy toy_torch 3 (1 + 2) 0%Z
    = (Ret ([[[1]; [3]; [5]]] ++ [[[36]; [38]; [40]]; [[71]; [73]; [75]]],
            [[7]] ++ [[42]; [77]]), 15)%Z.
Proof.
  assert (@create_synthetic_data toy_numpy toy_torch 3 1 0%Z
          = (Ret ([[[1]; [3]; [5]]], [[7]]), 5)%Z) as H1
    by (vm_compute; reflexivity).
  assert (@create_synthetic_data toy_numpy toy_torch 3 2 5%Z
          = (Ret ([[[36]; [38]; [40]]; [[71]; [73]; [75]]], [[42]; [77]]), 15)%Z)
    as H2 by (vm_compute; reflexivity).
  split; [lia|]. split; [exact H1|]. split; [exact H2|].
  destruct (@create_synthetic_data_append toy_numpy toy_torch 3 1 2 0%Z
              _ _ _ _ _ _ ltac:(lia) H1 H2) as [_ H3].
  exact H3.
Defined.

Lemma forward_last_time_step_witness :
  Forall (λ r : list (list Z), r ≠ []) [[[1%Z]; [2%Z]]; [[3%Z]]]
  ∧ ∃ rows,
      @forward toy_numpy toy_torch
        (@mkModel toy_numpy toy_torch 0%Z 10%Z true None) [[[1%Z]; [2%Z]]; [[3%Z]]]
      = inr (@linear_forward toy_numpy toy_torch 10%Z rows)
      ∧ length rows = 2.
Proof.
  assert (Forall (λ r : list (list Z), r ≠ []) [[[1%Z]; [2%Z]]; [[3%Z]]]) as Hne
    by (repeat constructor; discriminate).
  split; [exact Hne|].
  destruct (@forward_last_time_step toy_numpy toy_torch
              (@mkModel toy_numpy toy_torch 0%Z 10%Z true None)
              [[[1%Z]; [2%Z]]; [[3%Z]]] Hne) as (rows & Hf & Hl & _).
  exists rows. split; [exact Hf|exact Hl].
Defined.

Lemma training_loop_any_length_witness :
  Forall (λ r : list (list Z), r ≠ []) [[[1%Z]; [2%Z]]]
  ∧ ∃ evs,
      (@for_each _ _ _ (seq 0 25)
         (@epoch_body toy_numpy toy_torch [[[1%Z]; [2%Z]]] [[0%Z]] 25)
         (@mkModel toy_numpy toy_torch 0%Z 0%Z true None, tt) (toy_py 0 0)).1
      = Ret (@state_at toy_numpy toy_torch [[[1%Z]; [2%Z]]] [[0%Z]]
               (@mkModel toy_numpy toy_torch 0%Z 0%Z true None, tt) 25)
      ∧ length (List.filter is_optim_step evs) = 25
      ∧ length (omap printed evs) = 2.
Proof.
  assert (Forall (λ r : list (list Z), r ≠ []) [[[1%Z]; [2%Z]]]) as Hne
    by (repeat constructor; discriminate).
  split; [exact Hne|].
  destruct (@training_loop_any_length toy_numpy toy_torch
              [[[1%Z]; [2%Z]]] [[0%Z]] 25 25
              (@mkModel toy_numpy toy_torch 0%Z 0%Z true None, tt) (toy_py 0 0) Hne)
    as (evs & Hrun & Hsteps & _ & Hlines).
  exists evs. rewrite Hrun. split; [reflexivity|]. split; [exact Hsteps|].
  rewrite Hlines. reflexivity.
Defined.

Lemma gradient_is_fresh_each_epoch_witness :
  Forall (λ r : list (list Z), r ≠ []) [[[1%Z]; [2%Z]]]
  ∧ ∃ st',
      (@for_each _ _ _ (seq 0 4)
         (@epoch_body toy_numpy toy_torch [[[1%Z]; [2%Z]]] [[0%Z]] 4)
         (@mkModel toy_numpy toy_torch 0%Z 0%Z false None, tt) (toy_py 0 0)).1
      = Ret st'
      ∧ @training toy_numpy toy_torch st'.1 = true.
Proof.
  assert (Forall (λ r : list (list Z), r ≠ []) [[[1%Z]; [2%Z]]]) as Hne
    by (repeat constructor; discriminate).
  split; [exact Hne|].
  destruct (@gradient_is_fresh_each_epoch toy_numpy toy_torch
              [[[1%Z]; [2%Z]]] [[0%Z]] 4 3
              (@mkModel toy_numpy toy_torch 0%Z 0%Z false None, tt) (toy_py 0 0) Hne)
    as (prev & st' & _ & Hrun & _ & Ht).
  exists st'. split; [exact Hrun|exact Ht].
Defined.


